(** * Vacancy statistics: salary prediction, paginated fetch, aggregation

    A shallow embedding of [main.py].  Python integers are [Z]; Python
    floats are IEEE 754 binary64 values, modelled with the Standard
    Library's [spec_float] at precision 53 and maximal exponent 1024, so
    that [int((a + b) / 2)], [int(a * 1.2)] and [int(s / n)] round the way
    the interpreter does.  Exceptions are an explicit error monad. *)

From Stdlib Require Import String ZArith List Bool Lia.
From Stdlib Require Import Floats.SpecFloat.
Import ListNotations.

Local Open Scope Z_scope.

(** ** Exceptions *)

Inductive exn : Type :=
| HTTPError
| OverflowError
| ValueError
| ZeroDivisionError
| UnboundLocalError.

Inductive result (A : Type) : Type :=
| Ok (a : A)
| Raise (e : exn).

Arguments Ok {A} a.
Arguments Raise {A} e.

Definition bind {A B : Type} (r : result A) (k : A -> result B) : result B :=
  match r with
  | Ok a => k a
  | Raise e => Raise e
  end.

Notation "x <- r ;; k" := (bind r (fun x => k))
  (at level 61, r at next level, right associativity).

(** ** Python floats *)

Module PyFloat.

Definition prec : Z := 53.
Definition emax : Z := 1024.

Definition float : Type := spec_float.

(** [float(n)] for an integer operand of a mixed operation: the nearest
    double, ties to even; integers beyond the double range raise. *)
Definition int_to_float (n : Z) : result float :=
  match binary_normalize prec emax n 0 false with
  | S754_infinity _ => Raise OverflowError
  | x => Ok x
  end.

(** [x * y] on doubles; an overflow gives an infinity, not an exception. *)
Definition float_mul (x y : float) : float := SFmul prec emax x y.

(** [a / b] on integers: the correctly rounded quotient of the two
    integers themselves, whatever their size. *)
Definition int_true_divide (a b : Z) : result float :=
  match b, a with
  | Z0, _ => Raise ZeroDivisionError
  | _, Z0 => Ok (S754_zero (b <? 0))
  | _, _ =>
      let '(mz, ez, lz) := SFdiv_core_binary prec emax (Z.abs a) 0 (Z.abs b) 0 in
      match binary_round_aux prec emax (xorb (a <? 0) (b <? 0)) mz ez lz with
      | S754_infinity _ => Raise OverflowError
      | x => Ok x
      end
  end.

(** [int(x)]: truncation toward zero. *)
Definition float_to_int (x : float) : result Z :=
  match x with
  | S754_zero _ => Ok 0
  | S754_finite s m e => Ok (cond_Zopp s (Z.shiftl (Zpos m) e))
  | S754_infinity _ => Raise OverflowError
  | S754_nan => Raise ValueError
  end.

(** The literals [1.2] and [0.8]: the doubles nearest to 12/10 and 8/10. *)
Definition float_1_2 : float := S754_finite false 5404319552844595 (-52).
Definition float_0_8 : float := S754_finite false 7205759403792794 (-53).

End PyFloat.

Import PyFloat.

(** ** The prediction rule *)

(** Truthiness of an optional integer: [None] and [0] are falsy.  The
    result is the value itself when it is truthy. *)
Definition truthy_int (o : option Z) : option Z :=
  match o with
  | Some n => if n =? 0 then None else Some n
  | None => None
  end.

Definition predict_salary (salary_from salary_to : option Z)
  : result (option Z) :=
  match truthy_int salary_from, truthy_int salary_to with
  | Some lo, Some hi =>
      q <- int_true_divide (lo + hi) 2 ;;
      n <- float_to_int q ;;
      Ok (Some n)
  | Some lo, None =>
      x <- int_to_float lo ;;
      n <- float_to_int (float_mul x float_1_2) ;;
      Ok (Some n)
  | None, Some hi =>
      x <- int_to_float hi ;;
      n <- float_to_int (float_mul x float_0_8) ;;
      Ok (Some n)
  | None, None => Ok None
  end.

(** The rule in the spec's words, in exact integer arithmetic: a bound
    counts as given when it is neither absent nor zero; the midpoint is an
    integer division and the two one-sided estimates are the bound times
    12/10 and 8/10, all truncated toward zero. *)
Definition bound_given (o : option Z) : option Z :=
  match o with
  | Some 0 => None
  | _ => o
  end.

Definition spec_predict (lower upper : option Z) : option Z :=
  match bound_given lower, bound_given upper with
  | Some lo, Some hi => Some (Z.quot (lo + hi) 2)
  | Some lo, None => Some (Z.quot (12 * lo) 10)
  | None, Some hi => Some (Z.quot (8 * hi) 10)
  | None, None => None
  end.

(** Bounds whose magnitude stays below [2^50]. *)
Definition bound_in_range (o : option Z) : Prop :=
  match o with
  | Some n => Z.abs n < 2 ^ 50
  | None => True
  end.

(** ** Listings and the per-source adapters *)

Local Open Scope string_scope.
Local Open Scope list_scope.
Local Open Scope Z_scope.

(** hh.ru: [vacancy['salary']] is null or an object with a currency and
    two optional bounds. *)
Record hh_salary : Type := {
  salary_currency : string;
  salary_from : option Z;
  salary_to : option Z
}.

Record hh_vacancy : Type := { salary : option hh_salary }.

(** superjob.ru: currency and bounds sit on the vacancy itself. *)
Record sj_vacancy : Type := {
  currency : string;
  payment_from : option Z;
  payment_to : option Z
}.

Definition predict_rub_salary_hh (vacancy : hh_vacancy) : result (option Z) :=
  match salary vacancy with
  | Some s =>
      if String.eqb (salary_currency s) "RUR"
      then predict_salary (salary_from s) (salary_to s)
      else Ok None
  | None => Ok None
  end.

Definition predict_rub_salary_sj (vacancy : sj_vacancy) : result (option Z) :=
  if String.eqb (currency vacancy) "rub"
  then predict_salary (payment_from vacancy) (payment_to vacancy)
  else Ok None.

(** ** The transport and the paginated fetchers *)

(** One GET: either a status on which [raise_for_status] raises, or the
    parsed body. *)
Inductive response (P : Type) : Type :=
| Failed (status : Z)
| Success (content : P).

Arguments Failed {P} status.
Arguments Success {P} content.

(** What [requests.get] returns: the status code and the body as [json()]
    parses it. *)
Record http_response (P : Type) : Type := {
  status_code : Z;
  json : P
}.

Arguments status_code {P} h.
Arguments json {P} h.

(** [raise_for_status] of the requests library raises for the client and
    server error statuses, 400 to 599, and for no other status. *)
Definition raises_for_status (status : Z) : bool :=
  (400 <=? status) && (status <? 600).

(** [page_response.raise_for_status()] followed by
    [page_content = page_response.json()]. *)
Definition receive {P : Type} (h : http_response P) : response P :=
  if raises_for_status (status_code h) then Failed (status_code h)
  else Success (json h).

(** An element of a page is a vacancy, or a falsy placeholder ([None]). *)
Record hh_page : Type := {
  items : list (option hh_vacancy);
  found : Z;
  pages : Z
}.

Record sj_page : Type := {
  objects : list (option sj_vacancy);
  total : Z;
  more : bool
}.

(** What a generator does when it is run to its end: the requests it sends
    and the pairs it yields, in order, and the exception that ended it, if
    any. *)
Inductive event (V : Type) : Type :=
| Requested (page : Z)
| Yielded (vacancy : V) (count : Z).

Arguments Requested {V} page.
Arguments Yielded {V} vacancy count.

Record fetch_run (V : Type) : Type := {
  trace : list (event V);
  raised : option exn
}.

Arguments trace {V} f.
Arguments raised {V} f.

Section Pagination.

Context {P V S : Type}.

(** The parts in which the two fetchers differ: the [break] test of the
    page loop, the field of the page it reads, the listings and the total
    of a page. *)
Variable stop : Z -> S -> bool.
Variable signal : P -> S.
Variable listings : P -> list V.
Variable reported : P -> Z.

(** The transport, with every parameter but the page number fixed. *)
Variable get : Z -> response P.

Definition page_events (page : Z) (content : P) : list (event V) :=
  Requested page :: map (fun v => Yielded v (reported content)) (listings content).

(** The pairs of one page, and the events and pairs of consecutive
    pages starting at [page]. *)
Definition page_pairs (content : P) : list (V * Z) :=
  map (fun v => (v, reported content)) (listings content).

Fixpoint events_of (page : Z) (contents : list P) : list (event V) :=
  match contents with
  | [] => []
  | content :: contents' =>
      page_events page content ++ events_of (page + 1) contents'
  end.

(** [for page in count(): ...] entered at [page] with the last signal
    read; [None] when the fuel runs out before the loop breaks. *)
Fixpoint paginate (fuel : nat) (page : Z) (s : S) : option (fetch_run V) :=
  match fuel with
  | O => None
  | Datatypes.S fuel' =>
      if stop page s then Some {| trace := []; raised := None |}
      else
        match get page with
        | Failed _ =>
            Some {| trace := [Requested page]; raised := Some HTTPError |}
        | Success content =>
            match paginate fuel' (page + 1) (signal content) with
            | None => None
            | Some rest =>
                Some {| trace := page_events page content ++ trace rest;
                        raised := raised rest |}
            end
        end
  end.

(** The shape of a finished run: the pages answered with a body, each
    followed by all its listings paired with its own total, and then
    either a normal end or one last request answered with an error. *)
Inductive run_of (page : Z) (s : S) : list P -> fetch_run V -> Prop :=
| run_stop :
    stop page s = true ->
    run_of page s [] {| trace := []; raised := None |}
| run_fail (status : Z) :
    stop page s = false -> get page = Failed status ->
    run_of page s [] {| trace := [Requested page]; raised := Some HTTPError |}
| run_page (c : P) (cs : list P) (rest : fetch_run V) :
    stop page s = false -> get page = Success c ->
    run_of (page + 1) (signal c) cs rest ->
    run_of page s (c :: cs)
      {| trace := page_events page c ++ trace rest;
         raised := raised rest |}.

End Pagination.

(** hh.ru: [if page > page_content['pages'] or page == 200: break], the
    loop being entered with [page_content = {'pages': 0}]. *)
Definition hh_stop (page pages : Z) : bool := (page >? pages) || (page =? 200).

(** superjob.ru: [if not page_content['more'] or page == 50: break], the
    loop being entered with [page_content = {'more': 'True'}], a truthy
    value. *)
Definition sj_stop (page : Z) (more : bool) : bool := negb more || (page =? 50).

Definition fetch_hh_vacancies (get : Z -> response hh_page) (fuel : nat)
  : option (fetch_run (option hh_vacancy)) :=
  paginate hh_stop pages items found get fuel 0 0.

Definition fetch_sj_vacancies (get : Z -> response sj_page) (fuel : nat)
  : option (fetch_run (option sj_vacancy)) :=
  paginate sj_stop more objects total get fuel 0 true.

Fixpoint requests {V : Type} (tr : list (event V)) : list Z :=
  match tr with
  | [] => []
  | Requested page :: tr' => page :: requests tr'
  | Yielded _ _ :: tr' => requests tr'
  end.

Fixpoint yields {V : Type} (tr : list (event V)) : list (V * Z) :=
  match tr with
  | [] => []
  | Requested _ :: tr' => yields tr'
  | Yielded v n :: tr' => (v, n) :: yields tr'
  end.

(** Pages [page], [page + 1], ... ([n] of them). *)
Fixpoint pages_from (page : Z) (n : nat) : list Z :=
  match n with
  | O => []
  | Datatypes.S n' => page :: pages_from (page + 1) n'
  end.

(** ** The aggregator *)

Record row : Type := {
  language : string;
  total_found : Z;
  total_processed : Z;
  average_salary : Z
}.

(** The local variables of a statistics function that the loops assign;
    [vacancy_count] is unbound until the first pair is unpacked and is never
    reset between languages. *)
Record locals : Type := {
  vacancy_count : option Z;
  vacancies_processed : Z;
  salaries_sum : Z
}.

(** [int((salaries_sum / vacancies_processed) if vacancies_processed else 0)] *)
Definition average (sum processed : Z) : result Z :=
  if processed =? 0 then Ok 0
  else q <- int_true_divide sum processed ;; float_to_int q.

Section Statistics.

Context {V : Type}.
Variable predict_rub_salary : V -> result (option Z).
Variable fetch : string -> option (fetch_run (option V)).

(** The body of [for vacancy, vacancy_count in ...]. *)
Definition consume (l : locals) (vacancy : option V) (count : Z) : result locals :=
  let l := {| vacancy_count := Some count;
              vacancies_processed := vacancies_processed l;
              salaries_sum := salaries_sum l |} in
  match vacancy with
  | None => Ok l
  | Some v =>
      average_rub_salary <- predict_rub_salary v ;;
      match truthy_int average_rub_salary with
      | None => Ok l
      | Some s =>
          Ok {| vacancy_count := vacancy_count l;
                vacancies_processed := vacancies_processed l + 1;
                salaries_sum := salaries_sum l + s |}
      end
  end.

Fixpoint consume_all (l : locals) (tr : list (event (option V))) : result locals :=
  match tr with
  | [] => Ok l
  | Requested _ :: tr' => consume_all l tr'
  | Yielded vacancy count :: tr' =>
      l' <- consume l vacancy count ;; consume_all l' tr'
  end.

(** The inner loop over one generator: its pairs, then its exception. *)
Definition drain (l : locals) (run : fetch_run (option V)) : result locals :=
  l' <- consume_all l (trace run) ;;
  match raised run with
  | Some e => Raise e
  | None => Ok l'
  end.

(** The list appended for one language; its elements are evaluated from
    left to right. *)
Definition summary_row (name : string) (l : locals) : result row :=
  match vacancy_count l with
  | None => Raise UnboundLocalError
  | Some n =>
      a <- average (salaries_sum l) (vacancies_processed l) ;;
      Ok {| language := name;
            total_found := n;
            total_processed := vacancies_processed l;
            average_salary := a |}
  end.

(** One turn of [for language in languages], from the value
    [vacancy_count] has when the turn starts. *)
Definition language_turn (name : string) (count : option Z)
    (run : fetch_run (option V)) : result (row * option Z) :=
  l <- drain {| vacancy_count := count;
                vacancies_processed := 0;
                salaries_sum := 0 |} run ;;
  r <- summary_row name l ;;
  Ok (r, vacancy_count l).

Fixpoint statistics (languages : list string) (count : option Z)
  : option (result (list row)) :=
  match languages with
  | [] => Some (Ok [])
  | name :: languages' =>
      match fetch name with
      | None => None
      | Some run =>
          match language_turn name count run with
          | Raise e => Some (Raise e)
          | Ok (r, count') =>
              match statistics languages' count' with
              | None => None
              | Some (Raise e) => Some (Raise e)
              | Some (Ok rows) => Some (Ok (r :: rows))
              end
          end
      end
  end.

(** The predictions the aggregator counts, in the order of the pairs. *)
Fixpoint counted (ps : list (option V * Z)) : list Z :=
  match ps with
  | [] => []
  | (Some v, _) :: ps' =>
      match predict_rub_salary v with
      | Ok (Some s) => if s =? 0 then counted ps' else s :: counted ps'
      | _ => counted ps'
      end
  | (None, _) :: ps' => counted ps'
  end.

(** The listings whose prediction is not unknown, zero included. *)
Fixpoint predicted (ps : list (option V * Z)) : list Z :=
  match ps with
  | [] => []
  | (Some v, _) :: ps' =>
      match predict_rub_salary v with
      | Ok (Some s) => s :: predicted ps'
      | _ => predicted ps'
      end
  | (None, _) :: ps' => predicted ps'
  end.

End Statistics.

Definition sum_Z (l : list Z) : Z := fold_right Z.add 0 l.

Definition get_hh_statistics (transport : string -> Z -> response hh_page)
    (fuel : nat) (languages : list string) : option (result (list row)) :=
  statistics predict_rub_salary_hh
    (fun name => fetch_hh_vacancies (transport name) fuel) languages None.

Definition get_sj_statistics (transport : string -> Z -> response sj_page)
    (fuel : nat) (languages : list string) : option (result (list row)) :=
  statistics predict_rub_salary_sj
    (fun name => fetch_sj_vacancies (transport name) fuel) languages None.

(** ** Sample listings and transports *)

Definition hh_listing (lo hi : option Z) : option hh_vacancy :=
  Some {| salary := Some {| salary_currency := "RUR";
                            salary_from := lo; salary_to := hi |} |}.

Definition sj_listing (lo hi : option Z) : option sj_vacancy :=
  Some {| currency := "rub"; payment_from := lo; payment_to := hi |}.

(** The second page is answered with the status 503, the others with 200. *)
Definition hh_second_unavailable (p : Z) : http_response hh_page :=
  {| status_code := if p =? 1 then 503 else 200;
     json := {| items := [hh_listing (Some 1000) None]; found := 40; pages := 3 |} |}.

Definition sj_second_unavailable (p : Z) : http_response sj_page :=
  {| status_code := if p =? 1 then 503 else 200;
     json := {| objects := [sj_listing (Some 1000) None]; total := 40; more := true |} |}.

(** A single page answered with the status 300 and a body of one listing. *)
Definition hh_multiple_choices (p : Z) : http_response hh_page :=
  {| status_code := 300;
     json := {| items := [hh_listing (Some 1000) None]; found := 1; pages := 0 |} |}.

Definition sj_multiple_choices (p : Z) : http_response sj_page :=
  {| status_code := 300;
     json := {| objects := [sj_listing (Some 1000) None]; total := 1; more := false |} |}.

(** Three pages of ten listings, each page with a total of its own, then
    an empty last page. *)
Definition hh_three_pages (p : Z) : response hh_page :=
  if p <? 3
  then Success {| items := repeat (hh_listing (Some 1000) (Some 2000)) 10;
                  found := 30 + p; pages := 3 |}
  else Success {| items := []; found := 30; pages := 3 |}.

Definition sj_three_pages (p : Z) : response sj_page :=
  if p <? 3
  then Success {| objects := repeat (sj_listing (Some 1000) (Some 2000)) 10;
                  total := 30 + p; more := true |}
  else Success {| objects := []; total := 30; more := false |}.

(** "Go" has two listings, predicted 1000 and 2000; any other language has
    one listing without a salary. *)
Definition hh_go_ruby (name : string) (p : Z) : response hh_page :=
  if String.eqb name "Go"
  then Success {| items := [hh_listing (Some 1000) (Some 1000);
                            hh_listing (Some 2000) (Some 2000)];
                  found := 2; pages := 0 |}
  else Success {| items := [Some {| salary := None |}]; found := 5; pages := 0 |}.

Definition sj_go_ruby (name : string) (p : Z) : response sj_page :=
  if String.eqb name "Go"
  then Success {| objects := [sj_listing (Some 1000) (Some 1000);
                              sj_listing (Some 2000) (Some 2000)];
                  total := 2; more := false |}
  else Success {| objects := [sj_listing None None]; total := 5; more := false |}.

(** Every language has a single listing, with an upper bound of 1. *)
Definition hh_one_rouble (name : string) (p : Z) : response hh_page :=
  Success {| items := [hh_listing None (Some 1)]; found := 1; pages := 0 |}.

Definition sj_one_rouble (name : string) (p : Z) : response sj_page :=
  Success {| objects := [sj_listing None (Some 1)]; total := 1; more := false |}.

(** "Go" has one listing and a total of 7; any other language has an empty
    first page and a total of 0. *)
Definition hh_only_go (name : string) (p : Z) : response hh_page :=
  if String.eqb name "Go"
  then Success {| items := [hh_listing (Some 1000) None]; found := 7; pages := 0 |}
  else Success {| items := []; found := 0; pages := 0 |}.

Definition sj_only_go (name : string) (p : Z) : response sj_page :=
  if String.eqb name "Go"
  then Success {| objects := [sj_listing (Some 1000) None]; total := 7; more := false |}
  else Success {| objects := []; total := 0; more := false |}.

(** Two listings predicted at -1 and -2: the sum is negative and odd. *)
Definition hh_negative (name : string) (p : Z) : response hh_page :=
  Success {| items := [hh_listing (Some (-1)) (Some (-1));
                       hh_listing (Some (-2)) (Some (-2))];
             found := 2; pages := 0 |}.

(** Three listings predicted at [2^52], [2^52] and [2^52 + 2]. *)
Definition hh_large (name : string) (p : Z) : response hh_page :=
  Success {| items := [hh_listing (Some (2 ^ 52)) (Some (2 ^ 52));
                       hh_listing (Some (2 ^ 52)) (Some (2 ^ 52));
                       hh_listing (Some (2 ^ 52 + 2)) (Some (2 ^ 52 + 2))];
             found := 3; pages := 0 |}.

(** The predictions, zero included, of the listings one hh.ru fetch yields. *)
Definition hh_predictions (transport : string -> Z -> response hh_page)
    (name : string) (fuel : nat) : option (list Z) :=
  option_map (fun run => predicted predict_rub_salary_hh (yields (trace run)))
    (fetch_hh_vacancies (transport name) fuel).

(** What a row must hold for a run, in the aggregator's own terms: the
    listings counted are those with a prediction that is neither unknown
    nor zero; [k] is their number and [S] their sum. *)
Definition row_aggregates {V : Type} (predict : V -> result (option Z))
    (run : fetch_run (option V)) (r : row) : Prop :=
  let c := counted predict (yields (trace run)) in
  let k := Z.of_nat (length c) in
  let S := sum_Z c in
  total_processed r = k /\
  (k = 0 -> average_salary r = 0) /\
  (0 < k -> Z.abs S < 2 ^ 53 -> average_salary r = Z.quot S k) /\
  (0 < k -> 0 <= S < 2 ^ 53 -> average_salary r = S / k).

(** ** Rounding: the location of a rational in a shift record *)

(** A shift record [mrs] locates the rational [N / W]: its mantissa is the
    integer part, the round bit tells whether the remainder reaches one
    half, the sticky bit whether it is neither zero nor one half. *)
Definition locates (N W : Z) (mrs : shr_record) : Prop :=
  0 <= shr_m mrs /\
  0 <= N - shr_m mrs * W < W /\
  shr_r mrs = (W <=? 2 * (N - shr_m mrs * W)) /\
  shr_s mrs = negb (N - shr_m mrs * W =? 0) && negb (2 * (N - shr_m mrs * W) =? W).

(** The float expressions of the program followed by [int(...)]. *)
Definition trunc_true_divide (a b : Z) : result Z :=
  q <- int_true_divide a b ;; float_to_int q.

Definition trunc_times (c : float) (a : Z) : result Z :=
  x <- int_to_float a ;; float_to_int (float_mul x c).

(** * Properties *)

Example literal_1_2 : int_true_divide 12 10 = Ok float_1_2.
Proof. vm_compute. reflexivity. Qed.

Example literal_0_8 : int_true_divide 8 10 = Ok float_0_8.
Proof. vm_compute. reflexivity. Qed.


(** ** Rounding: what [binary_round_aux] computes *)

Section RoundingFacts.

Lemma digits2_pos_bounds (p : positive) :
2 ^ (Zpos (digits2_pos p) - 1) <= Zpos p < 2 ^ Zpos (digits2_pos p).
Proof.
induction p as [p IH | p IH | ]; cbn [digits2_pos].
- rewrite Pos2Z.inj_succ, (Pos2Z.inj_xI p).
  replace (Z.succ (Zpos (digits2_pos p)) - 1) with (Z.succ (Zpos (digits2_pos p) - 1)) by lia.
  rewrite !Z.pow_succ_r by lia. lia.
- rewrite Pos2Z.inj_succ, (Pos2Z.inj_xO p).
  replace (Z.succ (Zpos (digits2_pos p)) - 1) with (Z.succ (Zpos (digits2_pos p) - 1)) by lia.
  rewrite !Z.pow_succ_r by lia. lia.
- cbn. lia.
Qed.

Lemma digits2_pos_unique (p : positive) (d : Z) :
2 ^ (d - 1) <= Zpos p < 2 ^ d -> Zpos (digits2_pos p) = d.
Proof.
intros [Hlo Hhi]. pose proof (digits2_pos_bounds p) as [Blo Bhi].
set (c := Zpos (digits2_pos p)) in *.
assert (0 < c) by (subst c; lia).
destruct (Z.lt_trichotomy c d) as [Hlt | [Heq | Hgt]]; [ | exact Heq | ].
- assert (2 ^ c <= 2 ^ (d - 1)) by (apply Z.pow_le_mono_r; lia). lia.
- assert (0 <= d).
  { destruct (Z.lt_ge_cases d 0) as [Hn | Hn]; [ | exact Hn ].
    rewrite (Z.pow_neg_r 2 d Hn) in Hhi. lia. }
  assert (2 ^ d <= 2 ^ (c - 1)) by (apply Z.pow_le_mono_r; lia). lia.
Qed.

(** [iter_pos f n] applies [f] exactly [n] times: an invariant indexed by
  a counter advances by [n]. *)
Lemma iter_pos_invariant {A : Type} (f : A -> A) (I : Z -> A -> Prop) :
(forall k x, I k x -> I (k + 1) (f x)) ->
forall n k x, I k x -> I (k + Zpos n) (iter_pos f n x).
Proof.
intros Hstep. induction n as [n IH | n IH | ]; intros k x Hx; cbn [iter_pos].
- replace (k + Zpos n~1) with (k + 1 + Zpos n + Zpos n) by lia.
  apply IH, IH, Hstep, Hx.
- replace (k + Zpos n~0) with (k + Zpos n + Zpos n) by lia.
  apply IH, IH, Hx.
- apply Hstep, Hx.
Qed.

Lemma locates_shr_1 (N W : Z) (mrs : shr_record) :
locates N W mrs -> locates N (2 * W) (shr_1 mrs).
Proof.
destruct mrs as [m r s]. unfold locates. cbn [shr_m shr_r shr_s].
intros (Hm & Hrem & Hr & Hs).
assert (Hrs : orb r s = negb (N - m * W =? 0)).
{ subst r s. destruct (Z.leb_spec W (2 * (N - m * W)));
    destruct (Z.eqb_spec (N - m * W) 0); destruct (Z.eqb_spec (2 * (N - m * W)) W);
    cbn; try reflexivity; lia. }
unfold shr_1.
destruct m as [ | [p | p | ] | p ]; cbn [shr_m shr_r shr_s]; rewrite Hrs;
  try rewrite (Pos2Z.inj_xI p) in *; try rewrite (Pos2Z.inj_xO p) in *; try lia.
all: repeat split; try lia.
all: repeat match goal with
       | |- context [Z.leb ?a ?b] => destruct (Z.leb_spec a b)
       | |- context [Z.eqb ?a ?b] => destruct (Z.eqb_spec a b)
       end; cbn; try reflexivity; try lia.
Qed.

Lemma locates_shr (N W : Z) (mrs : shr_record) (e n : Z) :
locates N W mrs -> 0 <= n ->
locates N (W * 2 ^ n) (fst (shr mrs e n)) /\ snd (shr mrs e n) = e + n.
Proof.
intros Hloc Hn. destruct n as [ | p | p ]; cbn [shr fst snd]; try lia.
- rewrite Z.pow_0_r, Z.mul_1_r, Z.add_0_r. split; [exact Hloc | reflexivity].
- split; [ | reflexivity ].
  pose (I := fun k x => 0 <= k /\ locates N (W * 2 ^ k) x).
  assert (HI : I (0 + Zpos p) (iter_pos shr_1 p mrs)).
  { apply iter_pos_invariant.
    - intros k x [Hk Hx]. split; [lia | ].
      rewrite Z.pow_add_r, Z.pow_1_r by lia.
      replace (W * (2 ^ k * 2)) with (2 * (W * 2 ^ k)) by ring.
      apply locates_shr_1, Hx.
    - split; [lia | ]. rewrite Z.pow_0_r, Z.mul_1_r. exact Hloc. }
  destruct HI as [_ HI]. exact HI.
Qed.

Lemma locates_exact (m : Z) :
0 <= m -> locates m 1 (shr_record_of_loc m loc_Exact).
Proof.
intros Hm. unfold locates. cbn [shr_record_of_loc shr_m shr_r shr_s].
replace (m - m * 1) with 0 by ring. cbn. repeat split; lia.
Qed.

Lemma locates_new_location (N k : Z) :
0 <= N -> 0 < k ->
locates N k (shr_record_of_loc (N / k) (new_location k (N mod k))).
Proof.
intros HN Hk.
pose proof (Z.mod_pos_bound N k Hk) as Hr.
pose proof (Z.div_mod N k ltac:(lia)) as Hdm.
assert (Hq : 0 <= N / k) by (apply Z.div_pos; lia).
assert (Hrem : N - N / k * k = N mod k) by lia.
assert (Hodd : Z.even k = false -> k <> 2 * (N mod k)).
{ intros Hev E. rewrite E, Z.even_mul in Hev. discriminate. }
unfold locates, new_location, new_location_even, new_location_odd.
destruct (Z.even k) eqn:Hev;
  destruct (Z.eqb_spec (N mod k) 0) as [Hz | Hz];
  [ | destruct (Z.compare_spec (2 * (N mod k)) k) as [Hc | Hc | Hc]
    | | destruct (Z.compare_spec (2 * (N mod k) + 1) k) as [Hc | Hc | Hc] ];
  cbn [shr_record_of_loc shr_m shr_r shr_s]; rewrite Hrem;
  try specialize (Hodd eq_refl);
  repeat split; try lia;
  repeat match goal with
    | |- context [Z.leb ?a ?b] => destruct (Z.leb_spec a b)
    | |- context [Z.eqb ?a ?b] => destruct (Z.eqb_spec a b)
    end; cbn; try reflexivity; try lia.
Qed.

(** Rounding to nearest moves the mantissa by at most one and leaves it
  within half a unit of the located rational. *)
Lemma round_nearest_even_locates (N W : Z) (mrs : shr_record) :
0 < W -> locates N W mrs ->
let m2 := round_nearest_even (shr_m mrs) (loc_of_shr_record mrs) in
shr_m mrs <= m2 <= shr_m mrs + 1 /\
- W <= 2 * (m2 * W - N) <= W.
Proof.
intros HW. destruct mrs as [m r s]. unfold locates.
cbn [shr_m shr_r shr_s]. intros (Hm & Hrem & Hr & Hs).
destruct (Z.leb_spec W (2 * (N - m * W))) as [Hle | Hlt];
  destruct (Z.eqb_spec (N - m * W) 0) as [Hz | Hz];
  destruct (Z.eqb_spec (2 * (N - m * W)) W) as [Hh | Hh];
  subst r s; cbn [negb andb loc_of_shr_record round_nearest_even];
  try destruct (Z.even m); lia.
Qed.

Lemma binary_round_aux_nearest (sx : bool) (mx : positive) (ex : Z)
  (lx : location) (N W : Z) :
0 < W ->
locates N W (shr_record_of_loc (Zpos mx) lx) ->
53 <= Zpos (digits2_pos mx) ->
-1074 <= ex + (Zpos (digits2_pos mx) - 53) < 971 ->
exists m2,
  2 ^ 52 <= m2 <= 2 ^ 53 /\
  - (W * 2 ^ (Zpos (digits2_pos mx) - 53))
    <= 2 * (m2 * (W * 2 ^ (Zpos (digits2_pos mx) - 53)) - N)
    <= W * 2 ^ (Zpos (digits2_pos mx) - 53) /\
  binary_round_aux prec emax sx (Zpos mx) ex lx =
    if m2 <? 2 ^ 53
    then S754_finite sx (Z.to_pos m2) (ex + (Zpos (digits2_pos mx) - 53))
    else S754_finite sx (Z.to_pos (2 ^ 52)) (ex + (Zpos (digits2_pos mx) - 53) + 1).
Proof.
intros HW Hloc Hd He.
pose proof (digits2_pos_bounds mx) as Hmx.
set (d := Zpos (digits2_pos mx)) in *.
set (n1 := d - 53) in *.
assert (Hmx0 : shr_m (shr_record_of_loc (Zpos mx) lx) = Zpos mx)
  by (destruct lx as [ | [ | | ] ]; reflexivity).
unfold binary_round_aux, shr_fexp. cbn [Zdigits2]. fold d.
assert (Hf : fexp prec emax (d + ex) - ex = n1).
{ unfold fexp, SpecFloat.emin, prec, emax. lia. }
rewrite Hf.
destruct (locates_shr N W (shr_record_of_loc (Zpos mx) lx) ex n1 Hloc ltac:(lia))
  as [Hloc1 He1].
destruct (shr (shr_record_of_loc (Z.pos mx) lx) ex n1) as [mrs1 e1].
cbn [fst snd] in Hloc1, He1. subst e1.
destruct (round_nearest_even_locates N (W * 2 ^ n1) mrs1) as [Hm2 Hnear];
  [ assert (0 < 2 ^ n1) by (apply Z.pow_pos_nonneg; lia); nia | exact Hloc1 | ].
cbv zeta in Hm2, Hnear.
set (m2 := round_nearest_even (shr_m mrs1) (loc_of_shr_record mrs1)) in *.
assert (Hm1 : 2 ^ 52 <= shr_m mrs1 < 2 ^ 53).
{ destruct Hloc as (_ & Hloc & _). rewrite Hmx0 in Hloc.
  destruct Hloc1 as (_ & Hloc1 & _).
  assert (HT : 0 < 2 ^ n1) by (apply Z.pow_pos_nonneg; lia).
  assert (Hd1 : 2 ^ (d - 1) = 2 ^ 52 * 2 ^ n1).
  { rewrite <- Z.pow_add_r by lia. f_equal. lia. }
  assert (Hd2 : 2 ^ d = 2 ^ 53 * 2 ^ n1).
  { rewrite <- Z.pow_add_r by lia. f_equal. lia. }
  rewrite Hd1, Hd2 in Hmx.
  set (T := 2 ^ n1) in *. set (m1 := shr_m mrs1) in *.
  clearbody T m1. clear - Hmx Hloc Hloc1 HT HW.
  change (2 ^ 52) with 4503599627370496 in *.
  change (2 ^ 53) with 9007199254740992 in *.
  split; nia. }
exists m2. split; [lia | split; [exact Hnear | ] ].
destruct (Z.ltb_spec m2 (2 ^ 53)) as [Hlt | Hge].
- assert (Hdig : Zdigits2 m2 = 53).
  { destruct m2 as [ | p2 | p2 ]; try lia. cbn [Zdigits2].
    apply digits2_pos_unique. lia. }
  rewrite Hdig.
  replace (fexp prec emax (53 + (ex + n1)) - (ex + n1)) with 0
    by (unfold fexp, SpecFloat.emin, prec, emax; lia).
  cbn [shr shr_record_of_loc shr_m].
  destruct m2 as [ | p2 | p2 ]; try lia.
  replace (ex + n1 <=? emax - prec) with true
    by (symmetry; apply Z.leb_le; unfold emax, prec; lia).
  reflexivity.
- assert (Hm2eq : m2 = 2 ^ 53) by lia. rewrite Hm2eq.
  replace (fexp prec emax (Zdigits2 (2 ^ 53) + (ex + n1)) - (ex + n1)) with 1
    by (change (Zdigits2 (2 ^ 53)) with 54;
        unfold fexp, SpecFloat.emin, prec, emax; lia).
  cbn [shr shr_record_of_loc shr_m iter_pos].
  change (shr_m (shr_1 {| shr_m := 2 ^ 53; shr_r := false; shr_s := false |}))
    with (2 ^ 52).
  change (2 ^ 52) with (Zpos (Z.to_pos (2 ^ 52))) at 1.
  cbv iota.
  replace (ex + n1 + 1 <=? emax - prec) with true
    by (symmetry; apply Z.leb_le; unfold emax, prec; lia).
  reflexivity.
Qed.

Lemma float_to_int_rounded (sx : bool) (m2 e : Z) :
2 ^ 52 <= m2 <= 2 ^ 53 -> e <= 0 ->
float_to_int
  (if m2 <? 2 ^ 53 then S754_finite sx (Z.to_pos m2) e
   else S754_finite sx (Z.to_pos (2 ^ 52)) (e + 1))
= Ok (cond_Zopp sx (m2 / 2 ^ (- e))).
Proof.
intros Hm He. destruct (Z.ltb_spec m2 (2 ^ 53)) as [Hlt | Hge];
  cbn [float_to_int]; do 2 f_equal.
- rewrite Z2Pos.id by lia. apply Z.shiftl_div_pow2. exact He.
- assert (Hm2 : m2 = 2 ^ 53) by lia. subst m2.
  rewrite Z2Pos.id by lia.
  destruct (Z.eq_dec e 0) as [-> | Hne]; [ reflexivity | ].
  rewrite Z.shiftl_div_pow2 by lia.
  replace (- e) with (1 + - (e + 1)) by lia.
  rewrite Z.pow_add_r by lia.
  change (2 ^ 53) with (2 ^ 1 * 2 ^ 52).
  rewrite Z.div_mul_cancel_l; [ reflexivity | | ]; lia.
Qed.

Lemma iter_xO_pow (p d : positive) :
Zpos (Pos.iter xO p d) = Zpos p * 2 ^ Zpos d.
Proof.
induction d as [ | d IH ] using Pos.peano_ind.
- cbn [Pos.iter]. rewrite (Pos2Z.inj_xO p). change (2 ^ 1) with 2. ring.
- rewrite Pos.iter_succ, (Pos2Z.inj_xO (Pos.iter xO p d)), IH, Pos2Z.inj_succ.
  rewrite Z.pow_succ_r by lia. ring.
Qed.

(** Integers below [2^53] in magnitude convert exactly: the mantissa is
  the integer shifted up to 53 digits. *)
Lemma binary_round_exact (sx : bool) (p : positive) :
Zpos p < 2 ^ 53 ->
binary_round prec emax sx p 0 =
  S754_finite sx (Z.to_pos (Zpos p * 2 ^ (53 - Zpos (digits2_pos p))))
    (Zpos (digits2_pos p) - 53).
Proof.
intros Hp. pose proof (digits2_pos_bounds p) as Hb.
set (d := Zpos (digits2_pos p)) in *.
assert (Hd : 0 < d <= 53).
{ split; [subst d; lia | ].
  destruct (Z.le_gt_cases d 53) as [H | H]; [exact H | ].
  assert (2 ^ 53 <= 2 ^ (d - 1)) by (apply Z.pow_le_mono_r; lia). lia. }
unfold binary_round. rewrite Z.add_0_r. fold d.
assert (Hf : fexp prec emax d = d - 53)
  by (unfold fexp, SpecFloat.emin, prec, emax; lia).
rewrite Hf. unfold shl_align. rewrite Z.sub_0_r.
assert (Hmz : exists mz, Zpos mz = Zpos p * 2 ^ (53 - d) /\
          (match d - 53 with
           | Z.neg d0 => (Pos.iter xO p d0, d - 53)
           | _ => (p, 0)
           end) = (mz, d - 53)).
{ destruct (d - 53) as [ | q | q ] eqn:E; try lia.
  - exists p. replace (53 - d) with 0 by lia. rewrite Z.mul_1_r. split; reflexivity.
  - exists (Pos.iter xO p q). rewrite iter_xO_pow.
    replace (53 - d) with (Zpos q) by lia. split; reflexivity. }
destruct Hmz as (mz & Hmz & Hal). rewrite Hal.
assert (Hdz : Zpos (digits2_pos mz) = 53).
{ apply digits2_pos_unique. rewrite Hmz.
  assert (HT : 0 < 2 ^ (53 - d)) by (apply Z.pow_pos_nonneg; lia).
  replace (2 ^ (53 - 1)) with (2 ^ (d - 1) * 2 ^ (53 - d))
    by (rewrite <- Z.pow_add_r by lia; f_equal; lia).
  replace (2 ^ 53) with (2 ^ d * 2 ^ (53 - d))
    by (rewrite <- Z.pow_add_r by lia; f_equal; lia).
  split; nia. }
destruct (binary_round_aux_nearest sx mz (d - 53) loc_Exact (Zpos mz) 1)
  as (m2 & Hm2 & Hnear & Heq);
  [ lia | apply locates_exact; lia | lia | lia | ].
rewrite Hdz in Hnear, Heq. change (2 ^ (53 - 53)) with 1 in Hnear.
assert (m2 = Zpos mz) by lia. subst m2.
assert (Hlt : (Zpos mz <? 2 ^ 53) = true).
{ apply Z.ltb_lt. pose proof (digits2_pos_bounds mz) as Hbz.
  rewrite Hdz in Hbz. lia. }
rewrite Hlt in Heq. rewrite Heq, <- Hmz. cbn [Z.to_pos].
f_equal. lia.
Qed.

(** A quotient that lands below the smallest normal double is rounded at
  the fixed exponent [-1074]; truncated, it is 0. *)
Lemma binary_round_aux_tiny (sx : bool) (q : Z) (l : location) :
0 <= q < 2 ^ 53 ->
float_to_int (binary_round_aux prec emax sx q (-1074) l) = Ok 0.
Proof.
intros Hq. unfold binary_round_aux, shr_fexp.
assert (Hdq : 0 <= Zdigits2 q <= 53).
{ destruct q as [ | pq | pq ]; cbn [Zdigits2]; try lia.
  pose proof (digits2_pos_bounds pq) as Hb.
  split; [ lia | ].
  destruct (Z.le_gt_cases (Zpos (digits2_pos pq)) 53) as [H | H]; [ exact H | ].
  assert (2 ^ 53 <= 2 ^ (Zpos (digits2_pos pq) - 1)) by (apply Z.pow_le_mono_r; lia).
  lia. }
replace (fexp prec emax (Zdigits2 q + -1074) - -1074) with 0
  by (unfold fexp, SpecFloat.emin, prec, emax; lia).
cbn [shr].
assert (Hm : shr_m (shr_record_of_loc q l) = q)
  by (destruct l as [ | [ | | ] ]; reflexivity).
assert (Hl : loc_of_shr_record (shr_record_of_loc q l) = l)
  by (destruct l as [ | [ | | ] ]; reflexivity).
rewrite Hm, Hl.
set (m2 := round_nearest_even q l).
assert (Hm2 : q <= m2 <= q + 1).
{ subst m2. destruct l as [ | [ | | ] ]; cbn [round_nearest_even];
    try destruct (Z.even q); lia. }
clearbody m2.
destruct (Z.eq_dec m2 (2 ^ 53)) as [-> | Hne].
- vm_compute. destruct sx; reflexivity.
- assert (Hd2 : 0 <= Zdigits2 m2 <= 53).
  { destruct m2 as [ | p2 | p2 ]; cbn [Zdigits2]; try lia.
    pose proof (digits2_pos_bounds p2) as Hb.
    split; [ lia | ].
    destruct (Z.le_gt_cases (Zpos (digits2_pos p2)) 53) as [H | H]; [ exact H | ].
    assert (2 ^ 53 <= 2 ^ (Zpos (digits2_pos p2) - 1)) by (apply Z.pow_le_mono_r; lia).
    lia. }
  replace (fexp prec emax (Zdigits2 m2 + -1074) - -1074) with 0
    by (unfold fexp, SpecFloat.emin, prec, emax; lia).
  cbn [shr shr_record_of_loc shr_m].
  destruct m2 as [ | p2 | p2 ]; try lia; [ reflexivity | ].
  change (-1074 <=? emax - prec) with true. cbv iota.
  cbn [float_to_int]. do 2 f_equal.
  rewrite Z.shiftl_div_pow2 by lia.
  assert (Zpos p2 / 2 ^ (- -1074) = 0).
  { apply Z.div_small. split; [ lia | ].
    assert (2 ^ 53 <= 2 ^ (- -1074)) by (apply Z.pow_le_mono_r; lia). lia. }
  rewrite H. destruct sx; reflexivity.
Qed.

(** True division of an integer below [2^53] by a positive integer,
  truncated back to an integer, is integer division. *)
Lemma true_divide_pos_trunc (pa pb : positive) (sx : bool) :
Zpos pa < 2 ^ 53 ->
let '(mz, ez, lz) := SFdiv_core_binary prec emax (Zpos pa) 0 (Zpos pb) 0 in
float_to_int (binary_round_aux prec emax sx mz ez lz)
= Ok (cond_Zopp sx (Zpos pa / Zpos pb)).
Proof.
intros Ha.
pose proof (digits2_pos_bounds pa) as Hda.
pose proof (digits2_pos_bounds pb) as Hdb.
unfold SFdiv_core_binary. cbn [Zdigits2].
set (d1 := Zpos (digits2_pos pa)) in *.
set (d2 := Zpos (digits2_pos pb)) in *.
assert (Hd1 : 0 < d1 <= 53).
{ split; [subst d1; lia | ].
  destruct (Z.le_gt_cases d1 53) as [H | H]; [exact H | ].
  assert (2 ^ 53 <= 2 ^ (d1 - 1)) by (apply Z.pow_le_mono_r; lia). lia. }
assert (Hd2 : 0 < d2) by (subst d2; lia).
set (a := Zpos pa) in *. set (b := Zpos pb) in *.
assert (Hb0 : 0 < b) by (subst b; lia).
assert (Ha0 : 0 < a) by (subst a; lia).
destruct (Z.le_gt_cases d2 (d1 + 1021)) as [Hnormal | Htiny].
2:{ (* the quotient is below the normal range *)
  replace (Z.min (fexp prec emax (d1 + 0 - (d2 + 0))) (0 - 0)) with (-1074)
    by (unfold fexp, SpecFloat.emin, prec, emax; lia).
  change (0 - 0 - -1074) with 1074. cbv iota.
  rewrite Z.shiftl_mul_pow2 by lia.
  set (N := a * 2 ^ 1074).
  destruct (Z.div_eucl N b) as [q r] eqn:Hqr.
  assert (Hq : q = N / b) by (unfold Z.div; rewrite Hqr; reflexivity).
  clear Hqr. subst q.
  assert (HN : N < 2 ^ 53 * b).
  { assert (E : 2 ^ d1 * 2 ^ 1074 <= 2 ^ 53 * 2 ^ (d2 - 1)).
    { rewrite <- !Z.pow_add_r by lia. apply Z.pow_le_mono_r; lia. }
    assert (0 < 2 ^ 1074) by (apply Z.pow_pos_nonneg; lia).
    subst N. nia. }
  assert (Hq : 0 <= N / b < 2 ^ 53).
  { split; [ apply Z.div_pos; subst N; lia | apply Z.div_lt_upper_bound; lia ]. }
  rewrite binary_round_aux_tiny by exact Hq.
  assert (Hab : a / b = 0).
  { apply Z.div_small. split; [ lia | ].
    assert (2 ^ d1 <= 2 ^ (d2 - 1)) by (apply Z.pow_le_mono_r; lia). lia. }
  rewrite Hab. destruct sx; reflexivity. }
replace (Z.min (fexp prec emax (d1 + 0 - (d2 + 0))) (0 - 0)) with (d1 - d2 - 53)
  by (unfold fexp, SpecFloat.emin, prec, emax; lia).
set (s := 53 + d2 - d1).
replace (0 - 0 - (d1 - d2 - 53)) with s by (subst s; lia).
assert (Hs : 0 < s) by (subst s; lia).
assert (Hm' : match s with
              | 0 => a
              | Z.pos _ => Z.shiftl a s
              | Z.neg _ => 0
              end = a * 2 ^ s).
{ destruct s; try lia. apply Z.shiftl_mul_pow2. lia. }
rewrite Hm'. clear Hm'.
set (N := a * 2 ^ s).
destruct (Z.div_eucl N b) as [q r] eqn:Hqr.
assert (Hq : q = N / b) by (unfold Z.div; rewrite Hqr; reflexivity).
assert (Hr : r = N mod b) by (unfold Z.modulo; rewrite Hqr; reflexivity).
clear Hqr. subst q r.
assert (HT : 0 < 2 ^ s) by (apply Z.pow_pos_nonneg; lia).
assert (HNlo : 2 ^ 52 * b <= N).
{ assert (E : 2 ^ (d1 - 1) * 2 ^ s = 2 ^ 52 * 2 ^ d2).
  { rewrite <- !Z.pow_add_r by lia. f_equal. subst s. lia. }
  subst N. nia. }
assert (HNhi : N < 2 ^ 54 * b).
{ assert (E : 2 ^ d1 * 2 ^ s = 2 ^ 54 * 2 ^ (d2 - 1)).
  { rewrite <- !Z.pow_add_r by lia. f_equal. subst s. lia. }
  subst N. nia. }
assert (Hqlo : 2 ^ 52 <= N / b) by (apply Z.div_le_lower_bound; lia).
assert (Hqhi : N / b < 2 ^ 54) by (apply Z.div_lt_upper_bound; lia).
pose proof (locates_new_location N b ltac:(lia) Hb0) as Hloc.
destruct (N / b) as [ | pq | pq ] eqn:Eq; try lia.
pose proof (digits2_pos_bounds pq) as Hdq.
set (dq := Zpos (digits2_pos pq)) in *.
assert (Hdq' : dq = 53 \/ dq = 54).
{ destruct (Z.le_gt_cases 55 dq) as [H | H].
  - assert (2 ^ 54 <= 2 ^ (dq - 1)) by (apply Z.pow_le_mono_r; lia). lia.
  - destruct (Z.le_gt_cases dq 52) as [H' | H'].
    + assert (2 ^ dq <= 2 ^ 52) by (apply Z.pow_le_mono_r; lia). lia.
    + lia. }
destruct (binary_round_aux_nearest sx pq (d1 - d2 - 53)
            (new_location b (N mod b)) N b Hb0 Hloc)
  as (m2 & Hm2 & Hnear & Heq); fold dq; [ lia | lia | ].
fold dq in Hnear, Heq. rewrite Heq.
rewrite float_to_int_rounded by lia. do 2 f_equal.
replace (- (d1 - d2 - 53 + (dq - 53))) with (s - (dq - 53)) by (subst s; lia).
set (n1 := dq - 53) in *.
assert (HT' : 0 < 2 ^ (s - n1)) by (apply Z.pow_pos_nonneg; lia).
assert (Hsplit : 2 ^ s = 2 ^ n1 * 2 ^ (s - n1)).
{ rewrite <- Z.pow_add_r by lia. f_equal. lia. }
assert (Hb2 : b < 2 * 2 ^ (s - n1)).
{ assert (2 ^ d2 <= 2 ^ (1 + (s - n1))) by (apply Z.pow_le_mono_r; subst s; lia).
  rewrite Z.pow_add_r in H by lia. change (2 ^ 1) with 2 in H. lia. }
assert (Hnear' : - b <= 2 * (m2 * b - a * 2 ^ (s - n1)) <= b).
{ subst N. rewrite Hsplit in Hnear.
  destruct Hdq' as [E | E]; subst n1; rewrite E in *;
    [ change (2 ^ (53 - 53)) with 1 in Hnear
    | change (2 ^ (54 - 53)) with 2 in Hnear ]; nia. }
set (T' := 2 ^ (s - n1)) in *. clearbody T'.
pose proof (Z.div_mod a b ltac:(lia)) as Hdm.
pose proof (Z.mod_pos_bound a b Hb0) as HR.
assert (HQ : 0 <= a / b) by (apply Z.div_pos; lia).
set (Q := a / b) in *. set (R := a mod b) in *. clearbody Q R.
clear - Hb0 HT' Hb2 Hnear' Hdm HR HQ.
symmetry. apply (Z.div_unique m2 T' Q (m2 - Q * T')); [ | ring ].
assert (Ha : a * T' = b * Q * T' + R * T') by (rewrite Hdm; ring).
rewrite Ha in Hnear'.
assert (HR0 : 0 <= R * T') by nia.
assert (HR1 : R * T' <= (b - 1) * T') by nia.
left. split.
- destruct (Z.le_gt_cases 0 (m2 - Q * T')) as [H | H]; [ exact H | ].
  assert (H1 : b * (m2 - Q * T') <= - b) by nia. lia.
- destruct (Z.lt_ge_cases (m2 - Q * T') T') as [H | H]; [ exact H | ].
  assert (H1 : 0 <= b * (m2 - Q * T' - T')) by nia. lia.
Qed.

(** Multiplying an exactly converted integer below [2^50] by a double
  within a few units in the last place of [n / 5], then truncating, gives
  the integer quotient of [n * x] by 5. *)
Lemma mul_fifths_trunc (sx : bool) (px M : positive) (k n delta : Z) :
Zpos px < 2 ^ 50 ->
2 ^ 52 <= Zpos M < 2 ^ 53 ->
5 * Zpos M = n * 2 ^ k + delta ->
(k = 52 /\ -1 <= delta <= 0) \/ (k = 53 /\ -1 <= delta <= 2) ->
0 <= n ->
float_to_int
  (float_mul
     (S754_finite sx (Z.to_pos (Zpos px * 2 ^ (53 - Zpos (digits2_pos px))))
        (Zpos (digits2_pos px) - 53))
     (S754_finite false M (- k)))
= Ok (cond_Zopp sx (n * Zpos px / 5)).
Proof.
intros Hx HM H5 Hk Hn.
pose proof (digits2_pos_bounds px) as Hdx.
set (dx := Zpos (digits2_pos px)) in *.
assert (Hdx' : 0 < dx <= 50).
{ split; [subst dx; lia | ].
  destruct (Z.le_gt_cases dx 50) as [H | H]; [exact H | ].
  assert (2 ^ 50 <= 2 ^ (dx - 1)) by (apply Z.pow_le_mono_r; lia). lia. }
set (x := Zpos px) in *.
assert (HA : 0 < 2 ^ (53 - dx)) by (apply Z.pow_pos_nonneg; lia).
assert (Hw : 2 ^ 52 <= x * 2 ^ (53 - dx) < 2 ^ 53).
{ replace (2 ^ 52) with (2 ^ (dx - 1) * 2 ^ (53 - dx))
    by (rewrite <- Z.pow_add_r by lia; f_equal; lia).
  replace (2 ^ 53) with (2 ^ dx * 2 ^ (53 - dx))
    by (rewrite <- Z.pow_add_r by lia; f_equal; lia).
  split; nia. }
set (w := x * 2 ^ (53 - dx)) in *.
destruct w as [ | pw | pw ] eqn:Ew; try lia.
cbn [Z.to_pos]. unfold float_mul, SFmul.
rewrite xorb_false_r.
set (P := Zpos (pw * M)).
assert (HP : P = Zpos pw * Zpos M) by (subst P; apply Pos2Z.inj_mul).
assert (HPb : 2 ^ 104 <= P < 2 ^ 106).
{ rewrite HP. change (2 ^ 104) with (2 ^ 52 * 2 ^ 52).
  change (2 ^ 106) with (2 ^ 53 * 2 ^ 53). split; nia. }
pose proof (digits2_pos_bounds (pw * M)) as HdP. fold P in HdP.
set (dP := Zpos (digits2_pos (pw * M))) in *.
assert (HdP' : dP = 105 \/ dP = 106).
{ destruct (Z.le_gt_cases 107 dP) as [H | H].
  - assert (2 ^ 106 <= 2 ^ (dP - 1)) by (apply Z.pow_le_mono_r; lia). lia.
  - destruct (Z.le_gt_cases dP 104) as [H' | H'].
    + assert (2 ^ dP <= 2 ^ 104) by (apply Z.pow_le_mono_r; lia). lia.
    + lia. }
destruct (binary_round_aux_nearest sx (pw * M) (dx - 53 + - k) loc_Exact P 1)
  as (m2 & Hm2 & Hnear & Heq); fold dP;
  [ lia | apply locates_exact; lia | lia | lia | ].
fold dP in Hnear, Heq. fold P in Heq. rewrite Heq.
rewrite float_to_int_rounded by lia. do 2 f_equal.
set (n1 := dP - 53) in *.
set (c := - (dx - 53 + - k + n1)).
assert (Hc : k - 50 <= c) by (subst c n1; lia).
assert (HC : 2 ^ (k - 50) <= 2 ^ c) by (apply Z.pow_le_mono_r; lia).
assert (HABC : 2 ^ (53 - dx) * 2 ^ k = 2 ^ n1 * 2 ^ c).
{ rewrite <- !Z.pow_add_r by lia. f_equal. subst c. lia. }
assert (H5P : 5 * P = n * x * (2 ^ n1 * 2 ^ c) + delta * Zpos pw).
{ rewrite HP, <- HABC, <- Ew. subst w.
  replace (5 * (x * 2 ^ (53 - dx) * Z.pos M))
    with (x * 2 ^ (53 - dx) * (5 * Zpos M)) by ring.
  rewrite H5. ring. }
set (C := 2 ^ c) in *. clearbody C.
pose proof (Z.div_mod (n * x) 5 ltac:(lia)) as Hdm.
pose proof (Z.mod_pos_bound (n * x) 5 ltac:(lia)) as Hr.
set (q := n * x / 5) in *. set (r := (n * x) mod 5) in *.
set (y := n * x) in *.
assert (Hq : 0 <= q) by (subst q; apply Z.div_pos; subst y x; lia).
clearbody q r y.
assert (HCpos : 4 <= C /\ (0 < delta -> 8 <= C)).
{ destruct Hk as [[Hk Hdl] | [Hk Hdl]]; rewrite Hk in HC; cbn in HC; lia. }
assert (Hy1 : 5 * (q * C) <= y * C).
{ replace (5 * (q * C)) with (5 * q * C) by ring.
  apply Z.mul_le_mono_nonneg_r; lia. }
assert (Hy2 : y * C <= 5 * (q * C) + 4 * C).
{ replace (5 * (q * C) + 4 * C) with ((5 * q + 4) * C) by ring.
  apply Z.mul_le_mono_nonneg_r; lia. }
assert (Hd1 : - Zpos pw <= delta * Zpos pw).
{ replace (- Zpos pw) with (-1 * Zpos pw) by ring.
  apply Z.mul_le_mono_nonneg_r; lia. }
assert (Hd2 : delta * Zpos pw <= 2 * Zpos pw).
{ apply Z.mul_le_mono_nonneg_r; lia. }
symmetry. apply (Z.div_unique m2 C q (m2 - C * q)); [ | ring ].
left.
change (2 ^ 52) with 4503599627370496 in *.
change (2 ^ 53) with 9007199254740992 in *.
destruct HdP' as [E | E]; subst n1; rewrite E in *;
  [ change (2 ^ (105 - 53)) with 4503599627370496 in *
  | change (2 ^ (106 - 53)) with 9007199254740992 in * ].
all: clear - Hw Hm2 Hnear H5P Hdm Hr Hq HCpos Hy1 Hy2 Hd1 Hd2; split; lia.
Qed.

(** *** The three float expressions of the program, on integers in range *)

Lemma trunc_true_divide_quot (a b : Z) :
Z.abs a < 2 ^ 53 -> 0 < b ->
trunc_true_divide a b = Ok (Z.quot a b).
Proof.
intros Ha Hb. unfold trunc_true_divide, int_true_divide.
destruct b as [ | pb | pb ]; try lia.
destruct a as [ | pa | pa ].
- reflexivity.
- pose proof (true_divide_pos_trunc pa pb false ltac:(lia)) as H.
  cbn [Z.abs Z.ltb Z.compare xorb].
  destruct (SFdiv_core_binary prec emax (Z.pos pa) 0 (Z.pos pb) 0) as [[mz ez] lz].
  rewrite Z.quot_div_nonneg by lia.
  destruct (binary_round_aux prec emax false mz ez lz); cbn [bind]; exact H.
- pose proof (true_divide_pos_trunc pa pb true ltac:(lia)) as H.
  cbn [Z.abs Z.ltb Z.compare xorb].
  destruct (SFdiv_core_binary prec emax (Z.pos pa) 0 (Z.pos pb) 0) as [[mz ez] lz].
  change (Z.neg pa) with (- Zpos pa).
  rewrite Z.quot_opp_l, Z.quot_div_nonneg by lia.
  destruct (binary_round_aux prec emax true mz ez lz); cbn [bind]; exact H.
Qed.

Lemma trunc_times_1_2 (a : Z) :
Z.abs a < 2 ^ 50 -> trunc_times float_1_2 a = Ok (Z.quot (12 * a) 10).
Proof.
intros Ha.
replace (12 * a) with (2 * (6 * a)) by ring. change 10 with (2 * 5).
rewrite Z.quot_mul_cancel_l by lia.
unfold trunc_times, int_to_float, binary_normalize.
destruct a as [ | pa | pa ].
- reflexivity.
- rewrite binary_round_exact by lia. cbn [bind].
  rewrite Z.quot_div_nonneg by lia.
  apply (mul_fifths_trunc false pa _ 52 6 (-1)); lia.
- rewrite binary_round_exact by lia. cbn [bind].
  change (Z.neg pa) with (- Zpos pa).
  rewrite Z.mul_opp_r, Z.quot_opp_l, Z.quot_div_nonneg by lia.
  apply (mul_fifths_trunc true pa _ 52 6 (-1)); lia.
Qed.

Lemma trunc_times_0_8 (a : Z) :
Z.abs a < 2 ^ 50 -> trunc_times float_0_8 a = Ok (Z.quot (8 * a) 10).
Proof.
intros Ha.
replace (8 * a) with (2 * (4 * a)) by ring. change 10 with (2 * 5).
rewrite Z.quot_mul_cancel_l by lia.
unfold trunc_times, int_to_float, binary_normalize.
destruct a as [ | pa | pa ].
- reflexivity.
- rewrite binary_round_exact by lia. cbn [bind].
  rewrite Z.quot_div_nonneg by lia.
  apply (mul_fifths_trunc false pa _ 53 4 2); lia.
- rewrite binary_round_exact by lia. cbn [bind].
  change (Z.neg pa) with (- Zpos pa).
  rewrite Z.mul_opp_r, Z.quot_opp_l, Z.quot_div_nonneg by lia.
  apply (mul_fifths_trunc true pa _ 53 4 2); lia.
Qed.

End RoundingFacts.

(** ** The prediction rule *)

Lemma truthy_int_bound_given (o : option Z) : truthy_int o = bound_given o.
Proof.
  destruct o as [ [ | p | p ] | ]; reflexivity.
Qed.

Lemma truthy_int_in_range (o : option Z) (n : Z) :
  bound_in_range o -> truthy_int o = Some n -> Z.abs n < 2 ^ 50.
Proof.
  destruct o as [ m | ]; cbn; [ | discriminate ].
  destruct (m =? 0); [ discriminate | ]. intros H E. injection E as <-. exact H.
Qed.

(** C1 (amended): for bounds of magnitude below [2^50], where a bound is
    present when it is neither [None] nor 0, [predict_salary] returns the
    midpoint by truncating integer division when both bounds are present,
    the lower bound times 1.2 truncated when only it is present, the upper
    bound times 0.8 truncated when only it is present, and [None] when
    neither is: it agrees with the rule computed in exact integer
    arithmetic. *)
Theorem predict_salary_in_range (lower upper : option Z) :
  bound_in_range lower -> bound_in_range upper ->
  predict_salary lower upper = Ok (spec_predict lower upper).
Proof.
  intros Hl Hu. unfold predict_salary, spec_predict.
  rewrite <- !truthy_int_bound_given.
  pose proof (truthy_int_in_range lower) as Rl.
  pose proof (truthy_int_in_range upper) as Ru.
  destruct (truthy_int lower) as [lo | ]; destruct (truthy_int upper) as [hi | ];
    try specialize (Rl _ Hl eq_refl); try specialize (Ru _ Hu eq_refl).
  - pose proof (trunc_true_divide_quot (lo + hi) 2) as H.
    unfold trunc_true_divide in H.
    assert (Hs : Z.abs (lo + hi) < 2 ^ 53).
    { change (2 ^ 50) with 1125899906842624 in *.
      change (2 ^ 53) with 9007199254740992. lia. }
    specialize (H Hs ltac:(lia)).
    destruct (int_true_divide (lo + hi) 2) as [q | e]; cbn [bind] in *;
      [ rewrite H; reflexivity | discriminate ].
  - pose proof (trunc_times_1_2 lo Rl) as H. unfold trunc_times in H.
    destruct (int_to_float lo) as [x | e]; cbn [bind] in *;
      [ rewrite H; reflexivity | discriminate ].
  - pose proof (trunc_times_0_8 hi Ru) as H. unfold trunc_times in H.
    destruct (int_to_float hi) as [x | e]; cbn [bind] in *;
      [ rewrite H; reflexivity | discriminate ].
  - reflexivity.
Qed.

Lemma predict_salary_in_range_examples :
  predict_salary (Some 1000) (Some 2000) = Ok (Some 1500) /\
  predict_salary (Some 1000) None = Ok (Some 1200) /\
  predict_salary None (Some 1000) = Ok (Some 800) /\
  predict_salary None None = Ok None.
Proof.
  split; [ | split; [ | split ] ].
  - apply (predict_salary_in_range (Some 1000) (Some 2000)); reflexivity.
  - apply (predict_salary_in_range (Some 1000) None); [ reflexivity | exact I ].
  - apply (predict_salary_in_range None (Some 1000)); [ exact I | reflexivity ].
  - apply (predict_salary_in_range None None); exact I.
Defined.

(** Beyond the exact range of doubles the float results leave the integer
    rule: two equal bounds [2^53 + 1] have the midpoint [2^53]; a lone lower
    bound [2^52 + 3] and a lone upper bound [3 * 2^49] are estimated one
    above the truncated product. *)
Lemma predict_salary_rounds_beyond_range :
  (predict_salary (Some 9007199254740993) (Some 9007199254740993)
     = Ok (Some 9007199254740992) /\
   spec_predict (Some 9007199254740993) (Some 9007199254740993)
     = Some 9007199254740993) /\
  (predict_salary (Some 4503599627370499) None = Ok (Some 5404319552844599) /\
   spec_predict (Some 4503599627370499) None = Some 5404319552844598) /\
  (predict_salary None (Some 1688849860263936) = Ok (Some 1351079888211149) /\
   spec_predict None (Some 1688849860263936) = Some 1351079888211148).
Proof.
  split; [ | split ]; split; vm_compute; reflexivity.
Qed.

(** C2: a lower bound of 0 behaves exactly like an absent lower bound,
    whatever the upper bound; in particular [predict(0, 1000)] and
    [predict(None, 1000)] are both 800. *)
Theorem zero_lower_bound_is_absent :
  (forall upper : option Z,
      predict_salary (Some 0) upper = predict_salary None upper) /\
  predict_salary (Some 0) (Some 1000) = Ok (Some 800) /\
  predict_salary None (Some 1000) = Ok (Some 800).
Proof.
  split; [ intros upper; reflexivity | split; vm_compute; reflexivity ].
Qed.

(** ** The adapters *)

(** C8: each adapter returns [None] at once when the listing's currency is
    not the source's target code ("RUR" for hh.ru, "rub" for superjob.ru),
    or when an hh.ru listing has no salary and hence no currency at all,
    and otherwise the prediction rule applied to the listing's two bounds. *)
Theorem adapters_filter_currency :
  (forall v : hh_vacancy, salary v = None -> predict_rub_salary_hh v = Ok None) /\
  (forall (v : hh_vacancy) (s : hh_salary),
      salary v = Some s -> salary_currency s <> "RUR" ->
      predict_rub_salary_hh v = Ok None) /\
  (forall (v : hh_vacancy) (s : hh_salary),
      salary v = Some s -> salary_currency s = "RUR" ->
      predict_rub_salary_hh v = predict_salary (salary_from s) (salary_to s)) /\
  (forall v : sj_vacancy,
      currency v <> "rub" -> predict_rub_salary_sj v = Ok None) /\
  (forall v : sj_vacancy,
      currency v = "rub" ->
      predict_rub_salary_sj v = predict_salary (payment_from v) (payment_to v)).
Proof.
  unfold predict_rub_salary_hh, predict_rub_salary_sj.
  split; [ | split; [ | split; [ | split ] ] ].
  - intros v ->. reflexivity.
  - intros v s -> Hc. apply String.eqb_neq in Hc. rewrite Hc. reflexivity.
  - intros v s -> Hc. apply String.eqb_eq in Hc. rewrite Hc. reflexivity.
  - intros v Hc. apply String.eqb_neq in Hc. rewrite Hc. reflexivity.
  - intros v Hc. apply String.eqb_eq in Hc. rewrite Hc. reflexivity.
Qed.

Lemma adapters_filter_currency_examples :
  predict_rub_salary_hh
    {| salary := Some {| salary_currency := "USD";
                         salary_from := Some 1000; salary_to := Some 2000 |} |}
    = Ok None /\
  predict_rub_salary_hh
    {| salary := Some {| salary_currency := "RUR";
                         salary_from := Some 1000; salary_to := Some 2000 |} |}
    = predict_salary (Some 1000) (Some 2000) /\
  predict_rub_salary_sj
    {| currency := "usd"; payment_from := Some 1000; payment_to := None |}
    = Ok None /\
  predict_rub_salary_sj
    {| currency := "rub"; payment_from := Some 1000; payment_to := None |}
    = predict_salary (Some 1000) None.
Proof.
  destruct adapters_filter_currency as (_ & H1 & H2 & H3 & H4).
  split; [ | split; [ | split ] ].
  - apply (H1 _ {| salary_currency := "USD";
                   salary_from := Some 1000; salary_to := Some 2000 |});
      [ reflexivity | cbn; discriminate ].
  - apply (H2 _ {| salary_currency := "RUR";
                   salary_from := Some 1000; salary_to := Some 2000 |});
      reflexivity.
  - apply H3. cbn. discriminate.
  - apply H4. reflexivity.
Defined.

(** ** The paginated fetchers *)

Lemma requests_app {V : Type} (a b : list (event V)) :
  requests (a ++ b) = requests a ++ requests b.
Proof.
  induction a as [ | [ p | v n ] a IH ]; cbn; [ | rewrite IH | ]; auto.
Qed.

Lemma yields_app {V : Type} (a b : list (event V)) :
  yields (a ++ b) = yields a ++ yields b.
Proof.
  induction a as [ | [ p | v n ] a IH ]; cbn; [ | | rewrite IH ]; auto.
Qed.


Lemma pages_from_In (page : Z) (n : nat) (q : Z) :
  In q (pages_from page n) <-> page <= q < page + Z.of_nat n.
Proof.
  revert page. induction n as [ | n IH ]; intros page; cbn [pages_from In].
  - lia.
  - rewrite IH. lia.
Qed.


Lemma last_cons_default {A : Type} (l : list A) (x d : A) :
  last (x :: l) d = last l x.
Proof.
  revert x d. induction l as [ | a l IH ]; intros x d; [ reflexivity | ].
  change (last (x :: a :: l) d) with (last (a :: l) d).
  rewrite (IH a d), (IH a x). reflexivity.
Qed.

Section PaginationFacts.

Context {P V S : Type}.
Variable stop : Z -> S -> bool.
Variable signal : P -> S.
Variable listings : P -> list V.
Variable reported : P -> Z.
Variable get : Z -> response P.

(** The page number at which the loop breaks whatever the signal. *)
Variable ceiling : Z.
Hypothesis stop_at_ceiling : forall s, stop ceiling s = true.

Local Abbreviation loop := (paginate stop signal listings reported get).
Local Abbreviation events := (events_of listings reported).
Local Abbreviation pairs := (page_pairs listings reported).
Local Abbreviation shape := (run_of stop signal listings reported get).

Lemma requests_page_events (page : Z) (c : P) :
  requests (page_events listings reported page c) = [page].
Proof.
  unfold page_events. cbn. f_equal.
  induction (listings c) as [ | v l IH ]; cbn; auto.
Qed.

Lemma yields_page_events (page : Z) (c : P) :
  yields (page_events listings reported page c) = pairs c.
Proof.
  unfold page_events, page_pairs. cbn.
  induction (listings c) as [ | v l IH ]; cbn; [ | rewrite IH ]; auto.
Qed.

Lemma requests_events_of (page : Z) (cs : list P) :
  requests (events page cs) = pages_from page (length cs).
Proof.
  revert page. induction cs as [ | c cs IH ]; intros page; cbn [events_of length pages_from].
  - reflexivity.
  - rewrite requests_app, requests_page_events, IH. reflexivity.
Qed.

Lemma yields_events_of (page : Z) (cs : list P) :
  yields (events page cs) = flat_map pairs cs.
Proof.
  revert page. induction cs as [ | c cs IH ]; intros page; cbn [events_of flat_map].
  - reflexivity.
  - rewrite yields_app, yields_page_events, IH. reflexivity.
Qed.

(** From any page up to the ceiling, fuel beyond the distance to the
    ceiling is enough for the loop to end. *)
Lemma paginate_total (fuel : nat) (page : Z) (s : S) :
  0 <= page <= ceiling -> (Z.to_nat (ceiling - page) < fuel)%nat ->
  exists run, loop fuel page s = Some run.
Proof.
  revert page s. induction fuel as [ | fuel IH ]; intros page s Hp Hf; [ lia | ].
  cbn [paginate].
  destruct (stop page s) eqn:Hstop; [ eexists; reflexivity | ].
  assert (page <> ceiling) by (intros ->; rewrite stop_at_ceiling in Hstop; discriminate).
  destruct (get page) as [ st | c ]; [ eexists; reflexivity | ].
  destruct (IH (page + 1) (signal c)) as [rest Hrest]; [ lia | lia | ].
  rewrite Hrest. eexists; reflexivity.
Qed.

Lemma paginate_more_fuel (fuel fuel' : nat) (page : Z) (s : S) (run : fetch_run V) :
  loop fuel page s = Some run -> (fuel <= fuel')%nat ->
  loop fuel' page s = Some run.
Proof.
  revert fuel' page s run. induction fuel as [ | fuel IH ]; intros fuel' page s run H Hle;
    [ discriminate | ].
  destruct fuel' as [ | fuel' ]; [ lia | ].
  cbn [paginate] in *.
  destruct (stop page s); [ exact H | ].
  destruct (get page) as [ st | c ]; [ exact H | ].
  destruct (loop fuel (page + 1) (signal c)) as [rest | ] eqn:E; [ | discriminate ].
  rewrite (IH fuel' _ _ _ E) by lia. exact H.
Qed.

Lemma paginate_run_of (fuel : nat) (page : Z) (s : S) (run : fetch_run V) :
  loop fuel page s = Some run -> exists cs, shape page s cs run.
Proof.
  revert page s run. induction fuel as [ | fuel IH ]; intros page s run H;
    [ discriminate | ].
  cbn [paginate] in H.
  destruct (stop page s) eqn:Hstop.
  { injection H as <-. exists []. constructor. exact Hstop. }
  destruct (get page) as [ st | c ] eqn:Hget.
  { injection H as <-. exists []. econstructor; eassumption. }
  destruct (loop fuel (page + 1) (signal c)) as [rest | ] eqn:E; [ | discriminate ].
  injection H as <-. destruct (IH _ _ _ E) as [cs Hcs].
  exists (c :: cs). constructor; assumption.
Qed.

Lemma run_of_trace (page : Z) (s : S) (cs : list P) (run : fetch_run V) :
  shape page s cs run ->
  (forall i c, nth_error cs i = Some c -> get (page + Z.of_nat i) = Success c) /\
  ((raised run = None /\ trace run = events page cs) \/
   (raised run = Some HTTPError /\
    trace run = events page cs ++ [Requested (page + Z.of_nat (length cs))] /\
    exists status, get (page + Z.of_nat (length cs)) = Failed status)).
Proof.
  induction 1 as [ page s Hs | page s st Hs Hg | page s c cs rest Hs Hg Hrest [IHget IH] ].
  - split; [ intros [ | i ] c E; discriminate | left; split; reflexivity ].
  - split; [ intros [ | i ] c E; discriminate | right ].
    cbn. rewrite Z.add_0_r. split; [ reflexivity | split; [ reflexivity | eauto ] ].
  - split.
    + intros [ | i ] c' E; cbn in E.
      * injection E as <-. rewrite Z.add_0_r. exact Hg.
      * replace (page + Z.of_nat (Datatypes.S i)) with (page + 1 + Z.of_nat i) by lia.
        apply IHget, E.
    + cbn [trace raised events_of length].
      replace (page + Z.of_nat (Datatypes.S (length cs)))
        with (page + 1 + Z.of_nat (length cs)) by lia.
      destruct IH as [ [Hr Ht] | (Hr & Ht & Hf) ]; [ left | right ];
        rewrite Hr, Ht.
      * split; reflexivity.
      * rewrite <- app_assoc. split; [ reflexivity | split; [ reflexivity | exact Hf ] ].
Qed.

(** Every page answered with a body lies below the ceiling, and so does
    a page answered with an error. *)
Lemma run_of_below_ceiling (page : Z) (s : S) (cs : list P) (run : fetch_run V) :
  shape page s cs run -> page <= ceiling ->
  page + Z.of_nat (length (requests (trace run))) <= ceiling.
Proof.
  induction 1 as [ page s Hs | page s st Hs Hg | page s c cs rest Hs Hg Hrest IH ];
    intros Hp; cbn [trace requests length].
  - lia.
  - assert (page <> ceiling) by (intros ->; rewrite stop_at_ceiling in Hs; discriminate).
    lia.
  - assert (page <> ceiling) by (intros ->; rewrite stop_at_ceiling in Hs; discriminate).
    rewrite requests_app, requests_page_events. cbn [app length].
    specialize (IH ltac:(lia)). lia.
Qed.

(** A transport that always answers with a body and never signals the
    end is read up to the ceiling, page by page, and no further. *)
Lemma paginate_never_done (fuel : nat) (page : Z) (s : S) :
  (forall p, exists c, get p = Success c /\
                       (p + 1 <> ceiling -> stop (p + 1) (signal c) = false)) ->
  0 <= page <= ceiling -> (page <> ceiling -> stop page s = false) ->
  (Z.to_nat (ceiling - page) < fuel)%nat ->
  exists run, loop fuel page s = Some run /\
              requests (trace run) = pages_from page (Z.to_nat (ceiling - page)) /\
              raised run = None.
Proof.
  intros Hnever. revert page s.
  induction fuel as [ | fuel IH ]; intros page s Hp Hs Hf; [ lia | ].
  cbn [paginate].
  destruct (Z.eq_dec page ceiling) as [-> | Hne].
  - rewrite stop_at_ceiling. eexists. split; [ reflexivity | ].
    rewrite Z.sub_diag. split; reflexivity.
  - rewrite (Hs Hne). destruct (Hnever page) as (c & Hget & Hnext). rewrite Hget.
    destruct (IH (page + 1) (signal c)) as (rest & Hrest & Hreq & Hraised);
      [ lia | exact Hnext | lia | ].
    rewrite Hrest. eexists. split; [ reflexivity | ].
    cbn [trace raised]. split; [ | exact Hraised ].
    rewrite requests_app, requests_page_events, Hreq.
    replace (Z.to_nat (ceiling - page))
      with (Datatypes.S (Z.to_nat (ceiling - (page + 1)))) by lia.
    reflexivity.
Qed.

(** A requested page answered with an error ends the run then and there:
    its request is the last event, and it was not requested before. *)
Lemma run_of_failed (page : Z) (s : S) (cs : list P) (run : fetch_run V)
    (p status : Z) :
  shape page s cs run ->
  In p (requests (trace run)) -> get p = Failed status ->
  raised run = Some HTTPError /\
  exists before, trace run = before ++ [Requested p] /\
                 ~ In p (requests before).
Proof.
  intros Hrun Hin Hfail.
  destruct (run_of_trace page s cs run Hrun) as [Hget Hshape].
  assert (Hnot : ~ In p (pages_from page (length cs))).
  { intros Hp. apply pages_from_In in Hp.
    destruct (nth_error cs (Z.to_nat (p - page))) as [c | ] eqn:E.
    - apply Hget in E. replace (page + Z.of_nat (Z.to_nat (p - page))) with p in E by lia.
      congruence.
    - apply nth_error_None in E. lia. }
  destruct Hshape as [ [Hr Ht] | (Hr & Ht & _) ]; rewrite Ht in Hin.
  - rewrite requests_events_of in Hin. contradiction.
  - rewrite requests_app, requests_events_of in Hin. cbn [requests] in Hin.
    apply in_app_or in Hin. destruct Hin as [Hin | [<- | []]]; [ contradiction | ].
    split; [ exact Hr | ].
    exists (events page cs). split; [ exact Ht | ].
    rewrite requests_events_of. exact Hnot.
Qed.

(** A run that ends normally ends because the test of the loop breaks at
    the page after the last answered one, on the signal last read. *)
Lemma run_of_normal_end (page : Z) (s : S) (cs : list P) (run : fetch_run V) :
  shape page s cs run -> raised run = None ->
  stop (page + Z.of_nat (length cs)) (last (map signal cs) s) = true.
Proof.
  induction 1 as [ page s Hs | page s st Hs Hg | page s c cs rest Hs Hg Hrest IH ];
    cbn [raised]; intros Hr.
  - cbn. rewrite Z.add_0_r. exact Hs.
  - discriminate.
  - cbn [map]. rewrite last_cons_default. cbn [length].
    replace (page + Z.of_nat (Datatypes.S (length cs)))
      with (page + 1 + Z.of_nat (length cs)) by lia.
    apply IH, Hr.
Qed.

Lemma run_of_yields (page : Z) (s : S) (cs : list P) (run : fetch_run V) :
  shape page s cs run -> yields (trace run) = flat_map pairs cs.
Proof.
  intros Hrun. destruct (run_of_trace page s cs run Hrun) as [_ Hshape].
  destruct Hshape as [ [_ Ht] | (_ & Ht & _) ]; rewrite Ht.
  - apply yields_events_of.
  - rewrite yields_app, yields_events_of. cbn. apply app_nil_r.
Qed.

End PaginationFacts.

Lemma hh_stop_at_ceiling (pages : Z) : hh_stop 200 pages = true.
Proof.
  unfold hh_stop. rewrite Z.eqb_refl. apply orb_true_r.
Qed.

Lemma sj_stop_at_ceiling (more : bool) : sj_stop 50 more = true.
Proof.
  unfold sj_stop. rewrite Z.eqb_refl. apply orb_true_r.
Qed.

(** C7: whatever the transport answers, each fetch ends, after at most 200
    requests for hh.ru and 50 for superjob.ru; when every answer has a body
    and none signals the end, exactly the pages [0 .. 199] (resp.
    [0 .. 49]) are requested and the fetch then ends normally. *)
Theorem fetch_halts_at_ceiling :
  (forall get fuel, (200 < fuel)%nat ->
     exists run, fetch_hh_vacancies get fuel = Some run /\
                 (length (requests (trace run)) <= 200)%nat) /\
  (forall get fuel, (50 < fuel)%nat ->
     exists run, fetch_sj_vacancies get fuel = Some run /\
                 (length (requests (trace run)) <= 50)%nat) /\
  (forall get fuel, (200 < fuel)%nat ->
     (forall p, exists c, get p = Success c /\ p < pages c) ->
     exists run, fetch_hh_vacancies get fuel = Some run /\
                 requests (trace run) = pages_from 0 200 /\
                 raised run = None) /\
  (forall get fuel, (50 < fuel)%nat ->
     (forall p, exists c, get p = Success c /\ more c = true) ->
     exists run, fetch_sj_vacancies get fuel = Some run /\
                 requests (trace run) = pages_from 0 50 /\
                 raised run = None).
Proof.
  split; [ | split; [ | split ] ].
  - intros get fuel Hf. unfold fetch_hh_vacancies.
    destruct (paginate_total hh_stop pages items found get 200 hh_stop_at_ceiling
                fuel 0 0) as [run Hrun]; [ lia | lia | ].
    exists run. split; [ exact Hrun | ].
    destruct (paginate_run_of _ _ _ _ _ _ _ _ _ Hrun) as [cs Hcs].
    pose proof (run_of_below_ceiling _ _ _ _ _ 200 hh_stop_at_ceiling _ _ _ _ Hcs). lia.
  - intros get fuel Hf. unfold fetch_sj_vacancies.
    destruct (paginate_total sj_stop more objects total get 50 sj_stop_at_ceiling
                fuel 0 true) as [run Hrun]; [ lia | lia | ].
    exists run. split; [ exact Hrun | ].
    destruct (paginate_run_of _ _ _ _ _ _ _ _ _ Hrun) as [cs Hcs].
    pose proof (run_of_below_ceiling _ _ _ _ _ 50 sj_stop_at_ceiling _ _ _ _ Hcs). lia.
  - intros get fuel Hf Hnever. unfold fetch_hh_vacancies.
    apply (paginate_never_done hh_stop pages items found get 200 hh_stop_at_ceiling);
      try lia; try reflexivity.
    intros p. destruct (Hnever p) as (c & Hget & Hp). exists c. split; [ exact Hget | ].
    intros Hne. unfold hh_stop. apply orb_false_iff. split; [ | apply Z.eqb_neq; exact Hne ].
    rewrite Z.gtb_ltb. apply Z.ltb_ge. lia.
  - intros get fuel Hf Hnever. unfold fetch_sj_vacancies.
    apply (paginate_never_done sj_stop more objects total get 50 sj_stop_at_ceiling);
      try lia; try reflexivity.
    intros p. destruct (Hnever p) as (c & Hget & Hp). exists c. split; [ exact Hget | ].
    intros Hne. unfold sj_stop. rewrite Hp. apply Z.eqb_neq. exact Hne.
Qed.

Lemma fetch_halts_at_ceiling_example :
  (exists run,
      fetch_hh_vacancies
        (fun p => Success {| items := []; found := 7; pages := p + 1 |}) 201
      = Some run /\
      requests (trace run) = pages_from 0 200 /\ raised run = None) /\
  (exists run,
      fetch_sj_vacancies
        (fun p => Success {| objects := []; total := 7; more := true |}) 51
      = Some run /\
      requests (trace run) = pages_from 0 50 /\ raised run = None).
Proof.
  destruct fetch_halts_at_ceiling as (_ & _ & Hhh & Hsj).
  split.
  - apply Hhh; [ lia | ].
    intros p. eexists. split; [ reflexivity | cbn; lia ].
  - apply Hsj; [ lia | ].
    intros p. eexists. split; reflexivity.
Defined.

Lemma receive_error_status {P : Type} (h : http_response P) :
  400 <= status_code h < 600 -> receive h = Failed (status_code h).
Proof.
  intros [Hlo Hhi]. unfold receive, raises_for_status.
  apply Z.leb_le in Hlo. apply Z.ltb_lt in Hhi. rewrite Hlo, Hhi. reflexivity.
Qed.

(** C9 (amended): when a requested page is answered with a client or server
    error status, 400 to 599, the statuses on which [raise_for_status]
    raises, the fetch ends with the transport error at that request: the
    request is the last event of the run (no listing of the failing page is
    yielded, no further page is requested) and the page was requested only
    once (no retry). *)
Theorem fetch_aborts_on_error_status :
  (forall http fuel, (200 < fuel)%nat ->
     exists run,
       fetch_hh_vacancies (fun p => receive (http p)) fuel = Some run /\
       forall p,
         In p (requests (trace run)) -> 400 <= status_code (http p) < 600 ->
         raised run = Some HTTPError /\
         exists before, trace run = before ++ [Requested p] /\
                        ~ In p (requests before)) /\
  (forall http fuel, (50 < fuel)%nat ->
     exists run,
       fetch_sj_vacancies (fun p => receive (http p)) fuel = Some run /\
       forall p,
         In p (requests (trace run)) -> 400 <= status_code (http p) < 600 ->
         raised run = Some HTTPError /\
         exists before, trace run = before ++ [Requested p] /\
                        ~ In p (requests before)).
Proof.
  split.
  - intros http fuel Hf. unfold fetch_hh_vacancies.
    destruct (paginate_total hh_stop pages items found (fun p => receive (http p))
                200 hh_stop_at_ceiling fuel 0 0) as [run Hrun]; [ lia | lia | ].
    exists run. split; [ exact Hrun | ].
    destruct (paginate_run_of _ _ _ _ _ _ _ _ _ Hrun) as [cs Hcs].
    intros p Hin Hstatus.
    apply (run_of_failed _ _ _ _ _ _ _ _ _ p (status_code (http p)) Hcs Hin).
    apply receive_error_status, Hstatus.
  - intros http fuel Hf. unfold fetch_sj_vacancies.
    destruct (paginate_total sj_stop more objects total (fun p => receive (http p))
                50 sj_stop_at_ceiling fuel 0 true) as [run Hrun]; [ lia | lia | ].
    exists run. split; [ exact Hrun | ].
    destruct (paginate_run_of _ _ _ _ _ _ _ _ _ Hrun) as [cs Hcs].
    intros p Hin Hstatus.
    apply (run_of_failed _ _ _ _ _ _ _ _ _ p (status_code (http p)) Hcs Hin).
    apply receive_error_status, Hstatus.
Qed.

Lemma fetch_aborts_on_error_status_example :
  (exists run,
      fetch_hh_vacancies (fun p => receive (hh_second_unavailable p)) 201
        = Some run /\
      raised run = Some HTTPError /\
      exists before, trace run = before ++ [Requested 1] /\
                     ~ In 1 (requests before)) /\
  (exists run,
      fetch_sj_vacancies (fun p => receive (sj_second_unavailable p)) 51
        = Some run /\
      raised run = Some HTTPError /\
      exists before, trace run = before ++ [Requested 1] /\
                     ~ In 1 (requests before)).
Proof.
  destruct fetch_aborts_on_error_status as [Hhh Hsj].
  split.
  - destruct (Hhh hh_second_unavailable 201%nat ltac:(lia)) as (run & Hrun & Hfail).
    exists run. split; [ exact Hrun | ].
    apply (Hfail 1); [ | cbn; lia ].
    vm_compute in Hrun. injection Hrun as <-. cbn. auto.
  - destruct (Hsj sj_second_unavailable 51%nat ltac:(lia)) as (run & Hrun & Hfail).
    exists run. split; [ exact Hrun | ].
    apply (Hfail 1); [ | cbn; lia ].
    vm_compute in Hrun. injection Hrun as <-. cbn. auto.
Defined.

(** A status that is not a success and on which [raise_for_status] does not
    raise: the page answered with 300 is parsed, its listing is yielded and
    the fetch ends normally. *)
Lemma fetch_goes_on_after_status_300 :
  status_code (hh_multiple_choices 0) = 300 /\
  fetch_hh_vacancies (fun p => receive (hh_multiple_choices p)) 201
    = Some {| trace := [Requested 0; Yielded (hh_listing (Some 1000) None) 1];
              raised := None |} /\
  status_code (sj_multiple_choices 0) = 300 /\
  fetch_sj_vacancies (fun p => receive (sj_multiple_choices p)) 51
    = Some {| trace := [Requested 0; Yielded (sj_listing (Some 1000) None) 1];
              raised := None |}.
Proof.
  split; [ | split; [ | split ] ]; vm_compute; reflexivity.
Qed.

(** C6: when the transport answers pages 0, 1 and 2 with ten listings each
    and a signal to go on, and page 3 with no listing and the signal to
    end, the fetch requests these four pages, emits after each request all
    the listings of that page with that page's own total, and so yields
    exactly the thirty pairs of the three pages, in order.  In general a
    run is, page after page from page 0, the request of the page followed
    by every listing of its body paired with the total of that body; it
    goes on until the test of the loop breaks on the signal last read, or
    until a request is answered with an error, which is then the last
    event. *)
Theorem fetch_pairs_each_page_with_its_total :
  (forall get c0 c1 c2 c3 fuel, (200 < fuel)%nat ->
     get 0 = Success c0 -> get 1 = Success c1 ->
     get 2 = Success c2 -> get 3 = Success c3 ->
     length (items c0) = 10%nat -> length (items c1) = 10%nat ->
     length (items c2) = 10%nat -> items c3 = [] ->
     1 <= pages c0 -> 2 <= pages c1 -> 3 <= pages c2 -> pages c3 < 4 ->
     exists run, fetch_hh_vacancies get fuel = Some run /\
       raised run = None /\
       trace run = events_of items found 0 [c0; c1; c2; c3] /\
       yields (trace run)
         = page_pairs items found c0 ++ page_pairs items found c1
             ++ page_pairs items found c2 /\
       length (yields (trace run)) = 30%nat) /\
  (forall get c0 c1 c2 c3 fuel, (50 < fuel)%nat ->
     get 0 = Success c0 -> get 1 = Success c1 ->
     get 2 = Success c2 -> get 3 = Success c3 ->
     length (objects c0) = 10%nat -> length (objects c1) = 10%nat ->
     length (objects c2) = 10%nat -> objects c3 = [] ->
     more c0 = true -> more c1 = true -> more c2 = true -> more c3 = false ->
     exists run, fetch_sj_vacancies get fuel = Some run /\
       raised run = None /\
       trace run = events_of objects total 0 [c0; c1; c2; c3] /\
       yields (trace run)
         = page_pairs objects total c0 ++ page_pairs objects total c1
             ++ page_pairs objects total c2 /\
       length (yields (trace run)) = 30%nat) /\
  (forall get fuel, (200 < fuel)%nat ->
     exists run cs, fetch_hh_vacancies get fuel = Some run /\
       (forall i c, nth_error cs i = Some c -> get (Z.of_nat i) = Success c) /\
       ((raised run = None /\
         trace run = events_of items found 0 cs /\
         hh_stop (Z.of_nat (length cs)) (last (map pages cs) 0) = true) \/
        (raised run = Some HTTPError /\
         trace run = events_of items found 0 cs
                       ++ [Requested (Z.of_nat (length cs))] /\
         exists status, get (Z.of_nat (length cs)) = Failed status)) /\
       yields (trace run) = flat_map (page_pairs items found) cs) /\
  (forall get fuel, (50 < fuel)%nat ->
     exists run cs, fetch_sj_vacancies get fuel = Some run /\
       (forall i c, nth_error cs i = Some c -> get (Z.of_nat i) = Success c) /\
       ((raised run = None /\
         trace run = events_of objects total 0 cs /\
         sj_stop (Z.of_nat (length cs)) (last (map more cs) true) = true) \/
        (raised run = Some HTTPError /\
         trace run = events_of objects total 0 cs
                       ++ [Requested (Z.of_nat (length cs))] /\
         exists status, get (Z.of_nat (length cs)) = Failed status)) /\
       yields (trace run) = flat_map (page_pairs objects total) cs).
Proof.
  split; [ | split; [ | split ] ].
  - intros get c0 c1 c2 c3 fuel Hf H0 H1 H2 H3 L0 L1 L2 L3 P0 P1 P2 P3.
    do 5 (destruct fuel as [ | fuel ]; [ lia | ]).
    unfold fetch_hh_vacancies. cbn [paginate]. unfold hh_stop.
    cbn [Z.add Pos.add Pos.succ]. rewrite H0, H1, H2, H3.
    replace (1 >? pages c0) with false by (symmetry; rewrite Z.gtb_ltb; apply Z.ltb_ge; lia).
    replace (2 >? pages c1) with false by (symmetry; rewrite Z.gtb_ltb; apply Z.ltb_ge; lia).
    replace (3 >? pages c2) with false by (symmetry; rewrite Z.gtb_ltb; apply Z.ltb_ge; lia).
    replace (4 >? pages c3) with true by (symmetry; rewrite Z.gtb_ltb; apply Z.ltb_lt; lia).
    cbn [Z.gtb Z.compare Z.eqb Pos.eqb orb trace raised].
    eexists. split; [ reflexivity | ]. cbn [trace raised].
    split; [ reflexivity | ].
    split; [ cbn [events_of Z.add Pos.add Pos.succ]; rewrite !app_nil_r; reflexivity | ].
    rewrite !yields_app, !yields_page_events.
    replace (page_pairs items found c3) with (@nil (option hh_vacancy * Z))
      by (unfold page_pairs; rewrite L3; reflexivity).
    cbn [yields]. rewrite !app_nil_r.
    split; [ reflexivity | ].
    unfold page_pairs. rewrite !length_app, !length_map, L0, L1, L2. reflexivity.
  - intros get c0 c1 c2 c3 fuel Hf H0 H1 H2 H3 L0 L1 L2 L3 P0 P1 P2 P3.
    do 5 (destruct fuel as [ | fuel ]; [ lia | ]).
    unfold fetch_sj_vacancies. cbn [paginate]. unfold sj_stop.
    cbn [Z.add Pos.add Pos.succ]. rewrite H0, H1, H2, H3, P0, P1, P2, P3.
    cbn [negb Z.eqb Pos.eqb orb trace raised].
    eexists. split; [ reflexivity | ]. cbn [trace raised].
    split; [ reflexivity | ].
    split; [ cbn [events_of Z.add Pos.add Pos.succ]; rewrite !app_nil_r; reflexivity | ].
    rewrite !yields_app, !yields_page_events.
    replace (page_pairs objects total c3) with (@nil (option sj_vacancy * Z))
      by (unfold page_pairs; rewrite L3; reflexivity).
    cbn [yields]. rewrite !app_nil_r.
    split; [ reflexivity | ].
    unfold page_pairs. rewrite !length_app, !length_map, L0, L1, L2. reflexivity.
  - intros get fuel Hf. unfold fetch_hh_vacancies.
    destruct (paginate_total hh_stop pages items found get 200 hh_stop_at_ceiling
                fuel 0 0) as [run Hrun]; [ lia | lia | ].
    destruct (paginate_run_of _ _ _ _ _ _ _ _ _ Hrun) as [cs Hcs].
    exists run, cs. split; [ exact Hrun | ].
    destruct (run_of_trace _ _ _ _ _ _ _ _ _ Hcs) as [Hget Hshape].
    split; [ exact Hget | split; [ | exact (run_of_yields _ _ _ _ _ _ _ _ _ Hcs) ] ].
    destruct Hshape as [ [Hr Ht] | (Hr & Ht & Hfail) ]; [ left | right; auto ].
    split; [ exact Hr | split; [ exact Ht | ] ].
    exact (run_of_normal_end _ _ _ _ _ _ _ _ _ Hcs Hr).
  - intros get fuel Hf. unfold fetch_sj_vacancies.
    destruct (paginate_total sj_stop more objects total get 50 sj_stop_at_ceiling
                fuel 0 true) as [run Hrun]; [ lia | lia | ].
    destruct (paginate_run_of _ _ _ _ _ _ _ _ _ Hrun) as [cs Hcs].
    exists run, cs. split; [ exact Hrun | ].
    destruct (run_of_trace _ _ _ _ _ _ _ _ _ Hcs) as [Hget Hshape].
    split; [ exact Hget | split; [ | exact (run_of_yields _ _ _ _ _ _ _ _ _ Hcs) ] ].
    destruct Hshape as [ [Hr Ht] | (Hr & Ht & Hfail) ]; [ left | right; auto ].
    split; [ exact Hr | split; [ exact Ht | ] ].
    exact (run_of_normal_end _ _ _ _ _ _ _ _ _ Hcs Hr).
Qed.

Lemma fetch_pairs_each_page_with_its_total_example :
  (exists run, fetch_hh_vacancies hh_three_pages 201 = Some run /\
     raised run = None /\
     requests (trace run) = [0; 1; 2; 3] /\
     yields (trace run)
       = repeat (hh_listing (Some 1000) (Some 2000), 30) 10
           ++ repeat (hh_listing (Some 1000) (Some 2000), 31) 10
           ++ repeat (hh_listing (Some 1000) (Some 2000), 32) 10 /\
     length (yields (trace run)) = 30%nat) /\
  (exists run, fetch_sj_vacancies sj_three_pages 51 = Some run /\
     raised run = None /\
     requests (trace run) = [0; 1; 2; 3] /\
     yields (trace run)
       = repeat (sj_listing (Some 1000) (Some 2000), 30) 10
           ++ repeat (sj_listing (Some 1000) (Some 2000), 31) 10
           ++ repeat (sj_listing (Some 1000) (Some 2000), 32) 10 /\
     length (yields (trace run)) = 30%nat).
Proof.
  destruct fetch_pairs_each_page_with_its_total as (Hhh & Hsj & _).
  split.
  - destruct (Hhh hh_three_pages
                {| items := repeat (hh_listing (Some 1000) (Some 2000)) 10;
                   found := 30; pages := 3 |}
                {| items := repeat (hh_listing (Some 1000) (Some 2000)) 10;
                   found := 31; pages := 3 |}
                {| items := repeat (hh_listing (Some 1000) (Some 2000)) 10;
                   found := 32; pages := 3 |}
                {| items := []; found := 30; pages := 3 |}
                201%nat)
      as (run & Hrun & Hr & Ht & Hy & Hl);
      try reflexivity; try (cbn; lia).
    exists run. split; [ exact Hrun | split; [ exact Hr | ] ].
    split; [ rewrite Ht; reflexivity | split; [ exact Hy | exact Hl ] ].
  - destruct (Hsj sj_three_pages
                {| objects := repeat (sj_listing (Some 1000) (Some 2000)) 10;
                   total := 30; more := true |}
                {| objects := repeat (sj_listing (Some 1000) (Some 2000)) 10;
                   total := 31; more := true |}
                {| objects := repeat (sj_listing (Some 1000) (Some 2000)) 10;
                   total := 32; more := true |}
                {| objects := []; total := 30; more := false |}
                51%nat)
      as (run & Hrun & Hr & Ht & Hy & Hl);
      try reflexivity; try (cbn; lia).
    exists run. split; [ exact Hrun | split; [ exact Hr | ] ].
    split; [ rewrite Ht; reflexivity | split; [ exact Hy | exact Hl ] ].
Defined.

(** ** The aggregator *)

Lemma average_quot (sum processed : Z) :
  Z.abs sum < 2 ^ 53 -> 0 < processed ->
  average sum processed = Ok (Z.quot sum processed).
Proof.
  intros Hs Hp. unfold average.
  destruct (Z.eqb_spec processed 0) as [E | _]; [ lia | ].
  apply trunc_true_divide_quot; assumption.
Qed.


Section StatisticsFacts.

Context {V : Type}.
Variable predict_rub_salary : V -> result (option Z).
Variable fetch : string -> option (fetch_run (option V)).

Local Abbreviation step := (consume predict_rub_salary).
Local Abbreviation steps := (consume_all predict_rub_salary).
Local Abbreviation kept := (counted predict_rub_salary).
Local Abbreviation turn := (language_turn predict_rub_salary).
Local Abbreviation stats := (statistics predict_rub_salary fetch).

(** One pair: the count is bound to the pair's total, and the two
    counters move by what the pair contributes to [counted]. *)
Lemma consume_ok (l l' : locals) (vacancy : option V) (n : Z) :
  step l vacancy n = Ok l' ->
  vacancy_count l' = Some n /\
  vacancies_processed l'
    = vacancies_processed l + Z.of_nat (length (kept [(vacancy, n)])) /\
  salaries_sum l' = salaries_sum l + sum_Z (kept [(vacancy, n)]).
Proof.
  unfold consume. cbn [counted].
  destruct vacancy as [v | ].
  - destruct (predict_rub_salary v) as [ [s | ] | e ]; cbn [bind truthy_int].
    + destruct (s =? 0); intros H; injection H as <-; cbn; repeat split; lia.
    + intros H; injection H as <-; cbn; repeat split; lia.
    + discriminate.
  - intros H; injection H as <-; cbn; repeat split; lia.
Qed.

Lemma counted_cons (p : option V * Z) (ps : list (option V * Z)) :
  kept (p :: ps) = kept [p] ++ kept ps.
Proof.
  destruct p as [ [v | ] n ]; cbn [counted].
  - destruct (predict_rub_salary v) as [ [s | ] | e ]; try reflexivity.
    destruct (s =? 0); reflexivity.
  - reflexivity.
Qed.

Lemma sum_Z_app (a b : list Z) : sum_Z (a ++ b) = sum_Z a + sum_Z b.
Proof.
  unfold sum_Z. induction a as [ | x a IH ]; cbn; [ | rewrite IH ]; lia.
Qed.

(** The inner loop, over a whole trace. *)
Lemma consume_all_ok (tr : list (event (option V))) (l l' : locals) :
  steps l tr = Ok l' ->
  vacancies_processed l'
    = vacancies_processed l + Z.of_nat (length (kept (yields tr))) /\
  salaries_sum l' = salaries_sum l + sum_Z (kept (yields tr)) /\
  (yields tr = [] -> vacancy_count l' = vacancy_count l) /\
  (yields tr <> [] ->
   vacancy_count l' = Some (last (map snd (yields tr)) 0)).
Proof.
  revert l. induction tr as [ | [ p | vacancy n ] tr IH ]; intros l H;
    cbn [consume_all yields] in *.
  - injection H as <-. cbn. repeat split; try lia. congruence.
  - apply IH, H.
  - destruct (step l vacancy n) as [l1 | e] eqn:E1; cbn [bind] in H; [ | discriminate ].
    apply consume_ok in E1. destruct E1 as (Hc & Hp & Hs).
    apply IH in H. destruct H as (Hp' & Hs' & Hnil & Hcons).
    rewrite counted_cons, length_app, sum_Z_app, Nat2Z.inj_add.
    split; [ lia | split; [ lia | split; [ discriminate | ] ] ].
    intros _. destruct (yields tr) as [ | q qs ] eqn:Ey.
    + rewrite Hnil by reflexivity. rewrite Hc. reflexivity.
    + rewrite Hcons by discriminate. reflexivity.
Qed.

(** One language: what its row holds when the turn ends normally. *)
Lemma language_turn_ok (name : string) (count count' : option Z)
    (run : fetch_run (option V)) (r : row) :
  turn name count run = Ok (r, count') ->
  raised run = None /\
  language r = name /\
  total_processed r = Z.of_nat (length (kept (yields (trace run)))) /\
  average (sum_Z (kept (yields (trace run)))) (total_processed r)
    = Ok (average_salary r) /\
  (yields (trace run) = [] -> count = Some (total_found r)) /\
  (yields (trace run) <> [] ->
   total_found r = last (map snd (yields (trace run))) 0) /\
  count' = Some (total_found r).
Proof.
  unfold language_turn, drain, summary_row. intros H.
  destruct (steps _ (trace run)) as [l1 | e] eqn:E1; cbn [bind] in H; [ | discriminate ].
  destruct (raised run) as [e | ]; cbn [bind] in H; [ discriminate | ].
  apply consume_all_ok in E1. cbn [vacancies_processed salaries_sum vacancy_count] in E1.
  destruct E1 as (Hp & Hs & Hnil & Hcons).
  destruct (vacancy_count l1) as [n | ] eqn:En; cbn [bind] in H; [ | discriminate ].
  destruct (average (salaries_sum l1) (vacancies_processed l1)) as [a | e] eqn:Ea;
    cbn [bind] in H; [ | discriminate ].
  injection H as <- <-.
  cbn [language total_found total_processed average_salary].
  rewrite Hs, Z.add_0_l in Ea.
  repeat split; try reflexivity.
  - lia.
  - exact Ea.
  - intros E. symmetry. apply Hnil, E.
  - intros E. specialize (Hcons E). congruence.
Qed.

Lemma consume_all_nothing (tr : list (event (option V))) (l : locals) :
  yields tr = [] -> steps l tr = Ok l.
Proof.
  induction tr as [ | [ p | v n ] tr IH ]; intros Htr; cbn in *;
    [ reflexivity | apply IH, Htr | discriminate ].
Qed.

(** A language whose generator yields nothing and raises nothing leaves
    the count as it was: unbound for the first language, the previous
    language's total afterwards. *)
Lemma language_turn_nothing_yielded (name : string) (count : option Z)
    (run : fetch_run (option V)) :
  yields (trace run) = [] -> raised run = None ->
  turn name count run
    = match count with
      | None => Raise UnboundLocalError
      | Some n => Ok ({| language := name; total_found := n;
                         total_processed := 0; average_salary := 0 |}, Some n)
      end.
Proof.
  intros Hy Hr. unfold language_turn, drain. rewrite Hr.
  rewrite (consume_all_nothing _ _ Hy). cbn [bind]. unfold summary_row. cbn.
  destruct count; reflexivity.
Qed.

Lemma statistics_total (languages : list string) (count : option Z) :
  (forall name, exists run, fetch name = Some run) ->
  exists outcome, stats languages count = Some outcome.
Proof.
  intros Hfetch. revert count.
  induction languages as [ | name languages IH ]; intros count; cbn [statistics].
  - eexists; reflexivity.
  - destruct (Hfetch name) as [run ->].
    destruct (turn name count run) as [ [r count'] | e ]; [ | eexists; reflexivity ].
    destruct (IH count') as [ [rows | e] -> ]; eexists; reflexivity.
Qed.

(** When the rows are returned, the row of each language is the one its
    own turn built. *)
Lemma statistics_nth (languages : list string) (count : option Z)
    (rows : list row) (i : nat) (name : string) :
  stats languages count = Some (Ok rows) ->
  nth_error languages i = Some name ->
  exists run r c c',
    fetch name = Some run /\ nth_error rows i = Some r /\
    turn name c run = Ok (r, c') /\
    (i = 0%nat -> c = count).
Proof.
  revert count rows i.
  induction languages as [ | name0 languages IH ]; intros count rows i H Hi;
    [ destruct i; discriminate | ].
  cbn [statistics] in H.
  destruct (fetch name0) as [run | ] eqn:Ef; [ | discriminate ].
  destruct (turn name0 count run) as [ [r count'] | e ] eqn:Et; [ | discriminate ].
  destruct (stats languages count') as [ [rows' | e] | ] eqn:Es; try discriminate.
  injection H as <-.
  destruct i as [ | i ]; cbn [nth_error] in *.
  - injection Hi as <-. exists run, r, count, count'. auto.
  - destruct (IH _ _ _ Es Hi) as (run' & r' & c & c' & H1 & H2 & H3 & _).
    exists run', r', c, c'. repeat split; try assumption. discriminate.
Qed.

End StatisticsFacts.

Lemma fetch_hh_total (get : Z -> response hh_page) (fuel : nat) :
  (200 < fuel)%nat -> exists run, fetch_hh_vacancies get fuel = Some run.
Proof.
  intros Hf.
  apply (paginate_total hh_stop pages items found get 200 hh_stop_at_ceiling); lia.
Qed.

Lemma fetch_sj_total (get : Z -> response sj_page) (fuel : nat) :
  (50 < fuel)%nat -> exists run, fetch_sj_vacancies get fuel = Some run.
Proof.
  intros Hf.
  apply (paginate_total sj_stop more objects total get 50 sj_stop_at_ceiling); lia.
Qed.

Section RowFacts.

Context {V : Type}.
Variable predict_rub_salary : V -> result (option Z).
Variable fetch : string -> option (fetch_run (option V)).
Hypothesis fetch_total : forall name, exists run, fetch name = Some run.

(** The statistics function ends, and when it returns rows, the row of
    every language counts and averages the pairs of that language's own
    run and records the total of its last pair. *)
Lemma statistics_rows (languages : list string) :
  exists outcome,
    statistics predict_rub_salary fetch languages None = Some outcome /\
    forall rows i name,
      outcome = Ok rows -> nth_error languages i = Some name ->
      exists run r,
        fetch name = Some run /\ nth_error rows i = Some r /\
        language r = name /\
        row_aggregates predict_rub_salary run r /\
        (yields (trace run) <> [] ->
         total_found r = last (map snd (yields (trace run))) 0).
Proof.
  destruct (statistics_total predict_rub_salary fetch languages None fetch_total)
    as [outcome Hout].
  exists outcome. split; [ exact Hout | ].
  intros rows i name -> Hi.
  destruct (statistics_nth _ _ _ _ _ _ _ Hout Hi)
    as (run & r & c & c' & Hf & Hr & Ht & _).
  exists run, r. split; [ exact Hf | split; [ exact Hr | ] ].
  apply language_turn_ok in Ht.
  destruct Ht as (_ & Hname & Hk & Havg & _ & Hlast & _).
  split; [ exact Hname | split; [ | exact Hlast ] ].
  unfold row_aggregates. cbv zeta. rewrite Hk in Havg.
  set (c0 := counted predict_rub_salary (yields (trace run))) in *.
  split; [ exact Hk | split; [ | split ] ].
  - intros E. rewrite E in Havg. cbn in Havg. congruence.
  - intros Hpos HS. rewrite average_quot in Havg by assumption. congruence.
  - intros Hpos HS. rewrite average_quot in Havg by lia.
    rewrite Z.quot_div_nonneg in Havg by lia. congruence.
Qed.

End RowFacts.

(** C3 (amended): each statistics function ends, and when it returns its
    rows, the row of a language, for the run of that language's fetch in
    which exactly [k] listings have a prediction that is neither unknown
    nor zero, summing to [S], has [totalProcessed = k], [averageSalary = 0]
    when [k = 0], and for [k > 0] and [|S| < 2^53] [averageSalary] is
    [S / k] truncated toward zero, which is [floor(S / k)] when [S >= 0]. *)
Theorem rows_count_and_average :
  (forall transport fuel languages, (200 < fuel)%nat ->
     exists outcome,
       get_hh_statistics transport fuel languages = Some outcome /\
       forall rows i name,
         outcome = Ok rows -> nth_error languages i = Some name ->
         exists run r,
           fetch_hh_vacancies (transport name) fuel = Some run /\
           nth_error rows i = Some r /\
           row_aggregates predict_rub_salary_hh run r) /\
  (forall transport fuel languages, (50 < fuel)%nat ->
     exists outcome,
       get_sj_statistics transport fuel languages = Some outcome /\
       forall rows i name,
         outcome = Ok rows -> nth_error languages i = Some name ->
         exists run r,
           fetch_sj_vacancies (transport name) fuel = Some run /\
           nth_error rows i = Some r /\
           row_aggregates predict_rub_salary_sj run r).
Proof.
  split; intros transport fuel languages Hf.
  - destruct (statistics_rows predict_rub_salary_hh
                (fun name => fetch_hh_vacancies (transport name) fuel)
                (fun name => fetch_hh_total (transport name) fuel Hf) languages)
      as (outcome & Hout & Hrows).
    exists outcome. split; [ exact Hout | ].
    intros rows i name Hok Hi.
    destruct (Hrows rows i name Hok Hi) as (run & r & H1 & H2 & _ & H3 & _).
    exists run, r. auto.
  - destruct (statistics_rows predict_rub_salary_sj
                (fun name => fetch_sj_vacancies (transport name) fuel)
                (fun name => fetch_sj_total (transport name) fuel Hf) languages)
      as (outcome & Hout & Hrows).
    exists outcome. split; [ exact Hout | ].
    intros rows i name Hok Hi.
    destruct (Hrows rows i name Hok Hi) as (run & r & H1 & H2 & _ & H3 & _).
    exists run, r. auto.
Qed.

(** The spec's end-to-end example: "Go" with two processed salaries 1000
    and 2000, "Ruby" with none. *)
Lemma rows_count_and_average_example :
  (exists rows r,
      get_hh_statistics hh_go_ruby 201 ["Go"; "Ruby"] = Some (Ok rows) /\
      nth_error rows 0 = Some r /\
      total_processed r = 2 /\ average_salary r = 1500) /\
  (exists rows r,
      get_sj_statistics sj_go_ruby 51 ["Go"; "Ruby"] = Some (Ok rows) /\
      nth_error rows 0 = Some r /\
      total_processed r = 2 /\ average_salary r = 1500).
Proof.
  destruct rows_count_and_average as [Hhh Hsj].
  split.
  - destruct (Hhh hh_go_ruby 201%nat ["Go"; "Ruby"] ltac:(lia))
      as (outcome & Hout & Hrows).
    pose proof Hout as Hc. vm_compute in Hc. injection Hc as Hc. subst outcome.
    destruct (Hrows _ 0%nat "Go" eq_refl eq_refl) as (run & r & Hrun & Hr & Hagg).
    eexists. exists r. split; [ exact Hout | split; [ exact Hr | ] ].
    vm_compute in Hrun. injection Hrun as <-.
    destruct Hagg as (Hk & _ & _ & Havg).
    split; [ exact Hk | ]. apply Havg; vm_compute; split; congruence.
  - destruct (Hsj sj_go_ruby 51%nat ["Go"; "Ruby"] ltac:(lia))
      as (outcome & Hout & Hrows).
    pose proof Hout as Hc. vm_compute in Hc. injection Hc as Hc. subst outcome.
    destruct (Hrows _ 0%nat "Go" eq_refl eq_refl) as (run & r & Hrun & Hr & Hagg).
    eexists. exists r. split; [ exact Hout | split; [ exact Hr | ] ].
    vm_compute in Hrun. injection Hrun as <-.
    destruct Hagg as (Hk & _ & _ & Havg).
    split; [ exact Hk | ]. apply Havg; vm_compute; split; congruence.
Defined.

(** Three runs on which the row is not the stated one.  A prediction of 0
    is a prediction, yet its listing is not counted: one listing with an
    upper bound of 1 gives the row [Go, 1, 0, 0].  A negative sum is
    truncated toward zero, not floored: predictions -1 and -2 average to
    -1.  Beyond [2^53] the float quotient can round up to the next integer:
    predictions [2^52], [2^52] and [2^52 + 2] average to [2^52 + 1]. *)
Lemma rows_depart_from_count_and_floor :
  (hh_predictions hh_one_rouble "Go" 201 = Some [0] /\
   get_hh_statistics hh_one_rouble 201 ["Go"]
     = Some (Ok [ {| language := "Go"; total_found := 1;
                     total_processed := 0; average_salary := 0 |} ])) /\
  (hh_predictions hh_negative "Go" 201 = Some [-1; -2] /\
   get_hh_statistics hh_negative 201 ["Go"]
     = Some (Ok [ {| language := "Go"; total_found := 2;
                     total_processed := 2; average_salary := -1 |} ]) /\
   (-1 + -2) / 2 = -2) /\
  (hh_predictions hh_large "Go" 201
     = Some [4503599627370496; 4503599627370496; 4503599627370498] /\
   get_hh_statistics hh_large 201 ["Go"]
     = Some (Ok [ {| language := "Go"; total_found := 3;
                     total_processed := 3;
                     average_salary := 4503599627370497 |} ]) /\
   (4503599627370496 + 4503599627370496 + 4503599627370498) / 3
     = 4503599627370496).
Proof.
  split; [ split | split; [ split; [ | split ] | split; [ | split ] ] ];
    vm_compute; reflexivity.
Qed.

(** C5: each statistics function ends, and when it returns its rows, the
    total recorded for a language whose fetch yields at least one pair is
    the total carried by the last pair of that fetch. *)
Theorem rows_record_last_total :
  (forall transport fuel languages, (200 < fuel)%nat ->
     exists outcome,
       get_hh_statistics transport fuel languages = Some outcome /\
       forall rows i name,
         outcome = Ok rows -> nth_error languages i = Some name ->
         exists run r,
           fetch_hh_vacancies (transport name) fuel = Some run /\
           nth_error rows i = Some r /\
           (yields (trace run) <> [] ->
            total_found r = last (map snd (yields (trace run))) 0)) /\
  (forall transport fuel languages, (50 < fuel)%nat ->
     exists outcome,
       get_sj_statistics transport fuel languages = Some outcome /\
       forall rows i name,
         outcome = Ok rows -> nth_error languages i = Some name ->
         exists run r,
           fetch_sj_vacancies (transport name) fuel = Some run /\
           nth_error rows i = Some r /\
           (yields (trace run) <> [] ->
            total_found r = last (map snd (yields (trace run))) 0)).
Proof.
  split; intros transport fuel languages Hf.
  - destruct (statistics_rows predict_rub_salary_hh
                (fun name => fetch_hh_vacancies (transport name) fuel)
                (fun name => fetch_hh_total (transport name) fuel Hf) languages)
      as (outcome & Hout & Hrows).
    exists outcome. split; [ exact Hout | ].
    intros rows i name Hok Hi.
    destruct (Hrows rows i name Hok Hi) as (run & r & H1 & H2 & _ & _ & H3).
    exists run, r. auto.
  - destruct (statistics_rows predict_rub_salary_sj
                (fun name => fetch_sj_vacancies (transport name) fuel)
                (fun name => fetch_sj_total (transport name) fuel Hf) languages)
      as (outcome & Hout & Hrows).
    exists outcome. split; [ exact Hout | ].
    intros rows i name Hok Hi.
    destruct (Hrows rows i name Hok Hi) as (run & r & H1 & H2 & _ & _ & H3).
    exists run, r. auto.
Qed.

(** Three pages reporting 30, 31 and 32: the row records 32. *)
Lemma rows_record_last_total_example :
  (exists rows r,
      get_hh_statistics (fun _ => hh_three_pages) 201 ["Go"] = Some (Ok rows) /\
      nth_error rows 0 = Some r /\ total_found r = 32) /\
  (exists rows r,
      get_sj_statistics (fun _ => sj_three_pages) 51 ["Go"] = Some (Ok rows) /\
      nth_error rows 0 = Some r /\ total_found r = 32).
Proof.
  destruct rows_record_last_total as [Hhh Hsj].
  split.
  - destruct (Hhh (fun _ => hh_three_pages) 201%nat ["Go"] ltac:(lia))
      as (outcome & Hout & Hrows).
    pose proof Hout as Hc. vm_compute in Hc. injection Hc as Hc. subst outcome.
    destruct (Hrows _ 0%nat "Go" eq_refl eq_refl) as (run & r & Hrun & Hr & Hlast).
    eexists. exists r. split; [ exact Hout | split; [ exact Hr | ] ].
    vm_compute in Hrun. injection Hrun as <-.
    apply Hlast. cbn. discriminate.
  - destruct (Hsj (fun _ => sj_three_pages) 51%nat ["Go"] ltac:(lia))
      as (outcome & Hout & Hrows).
    pose proof Hout as Hc. vm_compute in Hc. injection Hc as Hc. subst outcome.
    destruct (Hrows _ 0%nat "Go" eq_refl eq_refl) as (run & r & Hrun & Hr & Hlast).
    eexists. exists r. split; [ exact Hout | split; [ exact Hr | ] ].
    vm_compute in Hrun. injection Hrun as <-.
    apply Hlast. cbn. discriminate.
Defined.

(** C4 (the code fails it): a language whose first page is empty gets no
    row when it is the first language, the count being still unbound, and
    otherwise a row whose total is the previous language's last total. *)
Theorem no_listing_no_default_total :
  get_hh_statistics hh_only_go 201 ["Ruby"] = Some (Raise UnboundLocalError) /\
  get_sj_statistics sj_only_go 51 ["Ruby"] = Some (Raise UnboundLocalError) /\
  get_hh_statistics hh_only_go 201 ["Go"; "Ruby"]
    = Some (Ok [ {| language := "Go"; total_found := 7;
                    total_processed := 1; average_salary := 1200 |};
                 {| language := "Ruby"; total_found := 7;
                    total_processed := 0; average_salary := 0 |} ]) /\
  get_sj_statistics sj_only_go 51 ["Go"; "Ruby"]
    = Some (Ok [ {| language := "Go"; total_found := 7;
                    total_processed := 1; average_salary := 1200 |};
                 {| language := "Ruby"; total_found := 7;
                    total_processed := 0; average_salary := 0 |} ]).
Proof.
  split; [ | split; [ | split ] ]; vm_compute; reflexivity.
Qed.

Section SkipFacts.

Context {V : Type}.
Variable predict_rub_salary : V -> result (option Z).

Lemma consume_zero (l : locals) (v : V) (n : Z) :
  predict_rub_salary v = Ok (Some 0) ->
  consume predict_rub_salary l (Some v) n
    = Ok {| vacancy_count := Some n;
            vacancies_processed := vacancies_processed l;
            salaries_sum := salaries_sum l |}.
Proof.
  intros H. unfold consume. rewrite H. reflexivity.
Qed.

Lemma consume_unknown (l : locals) (v : V) (n : Z) :
  predict_rub_salary v = Ok None ->
  consume predict_rub_salary l (Some v) n
    = Ok {| vacancy_count := Some n;
            vacancies_processed := vacancies_processed l;
            salaries_sum := salaries_sum l |}.
Proof.
  intros H. unfold consume. rewrite H. reflexivity.
Qed.

End SkipFacts.

(** C10: a listing whose prediction is exactly 0 (an upper bound of 1 gives
    [int(1 * 0.8) = 0]) is skipped just like a listing whose prediction is
    unknown: the pair only rebinds the count; [vacancies_processed] and
    [salaries_sum] are unchanged. *)
Theorem zero_prediction_is_skipped :
  predict_salary None (Some 1) = Ok (Some 0) /\
  (forall l v v' n,
      predict_rub_salary_hh v = Ok (Some 0) ->
      predict_rub_salary_hh v' = Ok None ->
      consume predict_rub_salary_hh l (Some v) n
        = consume predict_rub_salary_hh l (Some v') n /\
      consume predict_rub_salary_hh l (Some v) n
        = Ok {| vacancy_count := Some n;
                vacancies_processed := vacancies_processed l;
                salaries_sum := salaries_sum l |}) /\
  (forall l v v' n,
      predict_rub_salary_sj v = Ok (Some 0) ->
      predict_rub_salary_sj v' = Ok None ->
      consume predict_rub_salary_sj l (Some v) n
        = consume predict_rub_salary_sj l (Some v') n /\
      consume predict_rub_salary_sj l (Some v) n
        = Ok {| vacancy_count := Some n;
                vacancies_processed := vacancies_processed l;
                salaries_sum := salaries_sum l |}).
Proof.
  split; [ vm_compute; reflexivity | split ]; intros l v v' n H0 Hn.
  - rewrite (consume_zero _ l v n H0), (consume_unknown _ l v' n Hn). split; reflexivity.
  - rewrite (consume_zero _ l v n H0), (consume_unknown _ l v' n Hn). split; reflexivity.
Qed.

Lemma zero_prediction_is_skipped_example :
  consume predict_rub_salary_hh
    {| vacancy_count := None; vacancies_processed := 3; salaries_sum := 4500 |}
    (hh_listing None (Some 1)) 9
  = Ok {| vacancy_count := Some 9; vacancies_processed := 3; salaries_sum := 4500 |} /\
  consume predict_rub_salary_sj
    {| vacancy_count := None; vacancies_processed := 3; salaries_sum := 4500 |}
    (sj_listing None (Some 1)) 9
  = Ok {| vacancy_count := Some 9; vacancies_processed := 3; salaries_sum := 4500 |}.
Proof.
  destruct zero_prediction_is_skipped as (_ & Hhh & Hsj).
  split.
  - refine (proj2 (Hhh _ _ {| salary := None |} 9 _ _)); vm_compute; reflexivity.
  - refine (proj2 (Hsj _ _ {| currency := "usd"; payment_from := None;
                              payment_to := None |} 9 _ _)); vm_compute; reflexivity.
Defined.

(** * Further properties *)

(** ** The order of the requests and the continuation rule *)

Lemma pages_from_snoc (page : Z) (n : nat) :
  pages_from page n ++ [page + Z.of_nat n] = pages_from page (Datatypes.S n).
Proof.
  revert page. induction n as [ | n IH ]; intros page.
  - cbn. rewrite Z.add_0_r. reflexivity.
  - cbn [pages_from app]. f_equal.
    replace (page + Z.of_nat (Datatypes.S n)) with (page + 1 + Z.of_nat n) by lia.
    apply IH.
Qed.

Section RequestOrder.

Context {P V S : Type}.
Variable stop : Z -> S -> bool.
Variable signal : P -> S.
Variable listings : P -> list V.
Variable reported : P -> Z.
Variable get : Z -> response P.
Variable ceiling : Z.
Hypothesis stop_at_ceiling : forall s, stop ceiling s = true.

Local Abbreviation shape := (run_of stop signal listings reported get).

(** The requests of a run are consecutive pages from the page the loop is
    entered at. *)
Lemma run_of_requests (page : Z) (s : S) (cs : list P) (run : fetch_run V) :
  shape page s cs run ->
  exists n, requests (trace run) = pages_from page n.
Proof.
  intros Hrun.
  destruct (run_of_trace _ _ _ _ _ _ _ _ _ Hrun) as [_ [ [_ Ht] | (_ & Ht & _) ] ];
    rewrite Ht.
  - exists (length cs). apply requests_events_of.
  - exists (Datatypes.S (length cs)).
    rewrite requests_app, requests_events_of. cbn [requests].
    apply pages_from_snoc.
Qed.

Lemma run_of_first_request (page : Z) (s : S) (cs : list P) (run : fetch_run V) :
  shape page s cs run ->
  (stop page s = true -> requests (trace run) = []) /\
  (stop page s = false -> In page (requests (trace run))).
Proof.
  intros Hrun. destruct Hrun as [ Hs | st Hs Hg | c cs rest Hs Hg Hrest ];
    cbn [trace]; split; intros E; try congruence.
  - reflexivity.
  - cbn. auto.
  - rewrite requests_app, requests_page_events. cbn. auto.
Qed.

(** After a page answered with a body, the next page is requested exactly
    when the test of the loop, on the signal of that body, does not break. *)
Lemma run_of_next_request (page : Z) (s : S) (cs : list P) (run : fetch_run V)
    (p : Z) (c : P) :
  shape page s cs run ->
  In p (requests (trace run)) -> get p = Success c ->
  (In (p + 1) (requests (trace run)) <-> stop (p + 1) (signal c) = false).
Proof.
  intros Hrun. revert p c.
  induction Hrun as [ page s Hs | page s st Hs Hg | page s c0 cs rest Hs Hg Hrest IH ];
    intros p c Hin Hget; cbn [trace requests] in *.
  - contradiction.
  - destruct Hin as [<- | []]. congruence.
  - rewrite requests_app, requests_page_events in *. cbn [app] in *.
    destruct (run_of_requests _ _ _ _ Hrest) as [n Hn].
    destruct (run_of_first_request _ _ _ _ Hrest) as [Hstop Hgo].
    destruct Hin as [<- | Hin].
    + rewrite Hg in Hget. injection Hget as <-.
      split.
      * intros [E | Hnext]; [ lia | ].
        destruct (stop (page + 1) (signal c0)) eqn:E; [ | reflexivity ].
        rewrite (Hstop eq_refl) in Hnext. contradiction.
      * intros E. right. apply Hgo, E.
    + assert (Hp : page + 1 <= p).
      { rewrite Hn in Hin. apply pages_from_In in Hin. lia. }
      rewrite <- (IH p c Hin Hget).
      split; [ intros [E | H]; [ lia | exact H ] | intros H; right; exact H ].
Qed.

End RequestOrder.



(** X2: after a page answered with a body, hh.ru's next page is requested
    exactly when its number does not exceed the [pages] field of that body
    and is not 200; superjob.ru's exactly when the body's [more] flag is
    true and the next number is not 50. *)
Theorem fetch_continues_on_signal :
  (forall get fuel, (200 < fuel)%nat ->
     exists run, fetch_hh_vacancies get fuel = Some run /\
       forall p c, In p (requests (trace run)) -> get p = Success c ->
         (In (p + 1) (requests (trace run))
          <-> p + 1 <= pages c /\ p + 1 <> 200)) /\
  (forall get fuel, (50 < fuel)%nat ->
     exists run, fetch_sj_vacancies get fuel = Some run /\
       forall p c, In p (requests (trace run)) -> get p = Success c ->
         (In (p + 1) (requests (trace run))
          <-> more c = true /\ p + 1 <> 50)).
Proof.
  split; intros get fuel Hf.
  - destruct (fetch_hh_total get fuel Hf) as [run Hrun].
    destruct (paginate_run_of _ _ _ _ _ _ _ _ _ Hrun) as [cs Hcs].
    exists run. split; [ exact Hrun | ]. intros p c Hin Hget.
    rewrite (run_of_next_request _ _ _ _ _ _ _ _ _ _ _ Hcs Hin Hget).
    unfold hh_stop. rewrite orb_false_iff, Z.gtb_ltb, Z.ltb_ge, Z.eqb_neq. reflexivity.
  - destruct (fetch_sj_total get fuel Hf) as [run Hrun].
    destruct (paginate_run_of _ _ _ _ _ _ _ _ _ Hrun) as [cs Hcs].
    exists run. split; [ exact Hrun | ]. intros p c Hin Hget.
    rewrite (run_of_next_request _ _ _ _ _ _ _ _ _ _ _ Hcs Hin Hget).
    unfold sj_stop. rewrite orb_false_iff, negb_false_iff, Z.eqb_neq. reflexivity.
Qed.

Lemma fetch_continues_on_signal_example :
  (exists run, fetch_hh_vacancies hh_three_pages 201 = Some run /\
     (In 3 (requests (trace run)) <-> 2 + 1 <= 3 /\ 2 + 1 <> 200) /\
     (In 4 (requests (trace run)) <-> 3 + 1 <= 3 /\ 3 + 1 <> 200)) /\
  (exists run, fetch_sj_vacancies sj_three_pages 51 = Some run /\
     (In 3 (requests (trace run)) <-> true = true /\ 2 + 1 <> 50) /\
     (In 4 (requests (trace run)) <-> false = true /\ 3 + 1 <> 50)).
Proof.
  destruct fetch_continues_on_signal as [Hhh Hsj].
  split.
  - destruct (Hhh hh_three_pages 201%nat ltac:(lia)) as (run & Hrun & Hnext).
    exists run. split; [ exact Hrun | ].
    pose proof Hrun as Hc. vm_compute in Hc. injection Hc as Hc.
    split.
    + apply (Hnext 2 {| items := repeat (hh_listing (Some 1000) (Some 2000)) 10;
                        found := 32; pages := 3 |});
        [ rewrite <- Hc; cbn; auto | reflexivity ].
    + apply (Hnext 3 {| items := []; found := 30; pages := 3 |});
        [ rewrite <- Hc; cbn; auto | reflexivity ].
  - destruct (Hsj sj_three_pages 51%nat ltac:(lia)) as (run & Hrun & Hnext).
    exists run. split; [ exact Hrun | ].
    pose proof Hrun as Hc. vm_compute in Hc. injection Hc as Hc.
    split.
    + apply (Hnext 2 {| objects := repeat (sj_listing (Some 1000) (Some 2000)) 10;
                        total := 32; more := true |});
        [ rewrite <- Hc; cbn; auto | reflexivity ].
    + apply (Hnext 3 {| objects := []; total := 30; more := false |});
        [ rewrite <- Hc; cbn; auto | reflexivity ].
Defined.

(** ** The rows as a whole *)

Section RowsMore.

Context {V : Type}.
Variable predict_rub_salary : V -> result (option Z).
Variable fetch : string -> option (fetch_run (option V)).

Local Abbreviation steps := (consume_all predict_rub_salary).
Local Abbreviation kept := (counted predict_rub_salary).
Local Abbreviation turn := (language_turn predict_rub_salary).
Local Abbreviation stats := (statistics predict_rub_salary fetch).

Lemma statistics_languages (languages : list string) (count : option Z)
    (rows : list row) :
  stats languages count = Some (Ok rows) -> map language rows = languages.
Proof.
  revert count rows.
  induction languages as [ | name languages IH ]; intros count rows H;
    cbn [statistics] in H.
  - injection H as <-. reflexivity.
  - destruct (fetch name) as [run | ]; [ | discriminate ].
    destruct (turn name count run) as [ [r count'] | e ] eqn:Et; [ | discriminate ].
    destruct (stats languages count') as [ [rows' | e] | ] eqn:Es; try discriminate.
    injection H as <-. cbn [map]. f_equal.
    + apply language_turn_ok in Et. apply Et.
    + apply (IH _ _ Es).
Qed.

(** The inner loop ends normally only if every listing it predicts is
    predicted without an exception. *)
Lemma consume_all_predictions (tr : list (event (option V))) (l l' : locals)
    (v : V) (n : Z) :
  steps l tr = Ok l' -> In (Some v, n) (yields tr) ->
  exists o, predict_rub_salary v = Ok o.
Proof.
  revert l. induction tr as [ | [ p | vacancy m ] tr IH ]; intros l H Hin;
    cbn [consume_all yields] in *.
  - contradiction.
  - apply (IH l H Hin).
  - destruct (consume predict_rub_salary l vacancy m) as [l1 | e] eqn:E1;
      cbn [bind] in H; [ | discriminate ].
    destruct Hin as [Hin | Hin]; [ | apply (IH l1 H Hin) ].
    injection Hin as -> ->. unfold consume in E1.
    destruct (predict_rub_salary v) as [o | e]; [ eexists; reflexivity | discriminate ].
Qed.

Lemma language_turn_predictions (name : string) (count count' : option Z)
    (run : fetch_run (option V)) (r : row) (v : V) (n : Z) :
  turn name count run = Ok (r, count') -> In (Some v, n) (yields (trace run)) ->
  exists o, predict_rub_salary v = Ok o.
Proof.
  unfold language_turn, drain. intros H Hin.
  destruct (steps _ (trace run)) as [l1 | e] eqn:E1; cbn [bind] in H; [ | discriminate ].
  apply (consume_all_predictions _ _ _ _ _ E1 Hin).
Qed.

Lemma counted_length (ps : list (option V * Z)) :
  (length (kept ps) <= length ps)%nat.
Proof.
  induction ps as [ | [ [v | ] n ] ps IH ]; cbn [counted length]; try lia.
  destruct (predict_rub_salary v) as [ [s | ] | e ]; try lia.
  destruct (s =? 0); cbn [length]; lia.
Qed.

(** The sum of predictions that all lie between two bounds lies between
    the bounds times their number. *)
Lemma sum_Z_bounds (lo hi : Z) (c : list Z) :
  Forall (fun s => lo <= s <= hi) c ->
  lo * Z.of_nat (length c) <= sum_Z c <= hi * Z.of_nat (length c).
Proof.
  unfold sum_Z. induction 1 as [ | s c Hs Hc IH ]; cbn [fold_right length].
  - lia.
  - rewrite Nat2Z.inj_succ. lia.
Qed.

(** The row after a language: its turn starts from the total of the row
    before. *)
Lemma statistics_nth_succ (languages : list string) (count : option Z)
    (rows : list row) (i : nat) (name : string) :
  stats languages count = Some (Ok rows) ->
  nth_error languages (Datatypes.S i) = Some name ->
  exists run r before c',
    fetch name = Some run /\ nth_error rows (Datatypes.S i) = Some r /\
    nth_error rows i = Some before /\
    turn name (Some (total_found before)) run = Ok (r, c').
Proof.
  revert count rows i.
  induction languages as [ | name0 languages IH ]; intros count rows i H Hi;
    [ discriminate | ].
  cbn [statistics] in H.
  destruct (fetch name0) as [run0 | ] eqn:Ef; [ | discriminate ].
  destruct (turn name0 count run0) as [ [r0 count0] | e ] eqn:Et; [ | discriminate ].
  destruct (stats languages count0) as [ [rows' | e] | ] eqn:Es; try discriminate.
  injection H as <-. cbn [nth_error] in Hi.
  destruct i as [ | i ].
  - destruct (statistics_nth _ _ _ _ _ _ _ Es Hi)
      as (run & r & c & c' & Hf & Hr & Ht & Hc).
    rewrite (Hc eq_refl) in Ht.
    apply language_turn_ok in Et. destruct Et as (_ & _ & _ & _ & _ & _ & ->).
    exists run, r, r0, c'. cbn [nth_error]. auto.
  - destruct (IH _ _ _ Es Hi) as (run & r & before & c' & H1 & H2 & H3 & H4).
    exists run, r, before, c'. cbn [nth_error]. auto.
Qed.

End RowsMore.

Lemma last_flat_map_pairs {P V : Type} (listings : P -> list V) (reported : P -> Z)
    (pre post : list P) (c : P) :
  listings c <> [] -> (forall c', In c' post -> listings c' = []) ->
  last (map snd (flat_map (page_pairs listings reported) (pre ++ c :: post))) 0
    = reported c.
Proof.
  intros Hc Hpost.
  rewrite flat_map_app. cbn [flat_map].
  assert (Hnil : flat_map (page_pairs listings reported) post = []).
  { induction post as [ | c' post IH ]; [ reflexivity | ].
    cbn [flat_map]. unfold page_pairs at 1.
    rewrite (Hpost c' (or_introl eq_refl)). cbn [map app].
    apply IH. intros c'' H. apply Hpost. right. exact H. }
  rewrite Hnil, app_nil_r, map_app. unfold page_pairs at 2.
  rewrite map_map. cbn [snd].
  destruct (exists_last Hc) as (l & v & ->).
  rewrite map_app. cbn [map]. rewrite app_assoc. apply last_last.
Qed.

Section RowsEnd.

Context {V : Type}.
Variable predict_rub_salary : V -> result (option Z).
Variable fetch : string -> option (fetch_run (option V)).
Hypothesis fetch_total : forall name, exists run, fetch name = Some run.

Local Abbreviation kept := (counted predict_rub_salary).

(** What the returned rows say about each language's run. *)
Lemma statistics_rows_runs (languages : list string) :
  exists outcome,
    statistics predict_rub_salary fetch languages None = Some outcome /\
    forall rows, outcome = Ok rows ->
      map language rows = languages /\
      (forall i name, nth_error languages i = Some name ->
         exists run r,
           fetch name = Some run /\ nth_error rows i = Some r /\
           raised run = None /\
           (forall v n, In (Some v, n) (yields (trace run)) ->
                        exists o, predict_rub_salary v = Ok o) /\
           0 <= total_processed r <= Z.of_nat (length (yields (trace run))) /\
           (yields (trace run) <> [] ->
            total_found r = last (map snd (yields (trace run))) 0) /\
           (forall lo hi,
               0 <= lo -> kept (yields (trace run)) <> [] ->
               Forall (fun s => lo <= s <= hi) (kept (yields (trace run))) ->
               sum_Z (kept (yields (trace run))) < 2 ^ 53 ->
               lo <= average_salary r <= hi)) /\
      (forall i name, nth_error languages (Datatypes.S i) = Some name ->
         exists run r before,
           fetch name = Some run /\ nth_error rows (Datatypes.S i) = Some r /\
           nth_error rows i = Some before /\
           (yields (trace run) = [] -> total_found r = total_found before)).
Proof.
  destruct (statistics_total predict_rub_salary fetch languages None fetch_total)
    as [outcome Hout].
  exists outcome. split; [ exact Hout | ].
  intros rows ->. split; [ apply (statistics_languages _ _ _ _ _ Hout) | split ].
  - intros i name Hi.
    destruct (statistics_nth _ _ _ _ _ _ _ Hout Hi)
      as (run & r & c & c' & Hf & Hr & Ht & _).
    exists run, r. split; [ exact Hf | split; [ exact Hr | ] ].
    pose proof (fun v n => language_turn_predictions _ _ _ _ _ _ v n Ht) as Hpred.
    apply language_turn_ok in Ht.
    destruct Ht as (Hraised & _ & Hk & Havg & _ & Hlast & _).
    split; [ exact Hraised | split; [ exact Hpred | split; [ | split; [ exact Hlast | ] ] ] ].
    + rewrite Hk. pose proof (counted_length predict_rub_salary (yields (trace run))). lia.
    + intros lo hi Hlo Hne Hall Hsum. rewrite Hk in Havg.
      pose proof (sum_Z_bounds lo hi _ Hall) as Hb.
      set (c0 := kept (yields (trace run))) in *.
      assert (Hpos : 0 < Z.of_nat (length c0)).
      { destruct c0; [ congruence | cbn [length]; lia ]. }
      assert (H0 : 0 <= sum_Z c0) by nia.
      rewrite average_quot in Havg by lia.
      rewrite Z.quot_div_nonneg in Havg by lia.
      injection Havg as <-. split.
      * apply Z.div_le_lower_bound; lia.
      * apply Z.div_le_upper_bound; lia.
  - intros i name Hi.
    destruct (statistics_nth_succ _ _ _ _ _ _ _ Hout Hi)
      as (run & r & before & c' & Hf & Hr & Hb & Ht).
    exists run, r, before. split; [ exact Hf | split; [ exact Hr | split; [ exact Hb | ] ] ].
    intros Hnil. apply language_turn_ok in Ht.
    destruct Ht as (_ & _ & _ & _ & Hcount & _).
    specialize (Hcount Hnil). congruence.
Qed.

End RowsEnd.

(** X4: when a statistics function returns rows, there is exactly one row
    per language, in the order of the language list, each carrying its
    language's name. *)
Theorem rows_in_language_order :
  (forall transport fuel languages, (200 < fuel)%nat ->
     exists outcome,
       get_hh_statistics transport fuel languages = Some outcome /\
       forall rows, outcome = Ok rows -> map language rows = languages) /\
  (forall transport fuel languages, (50 < fuel)%nat ->
     exists outcome,
       get_sj_statistics transport fuel languages = Some outcome /\
       forall rows, outcome = Ok rows -> map language rows = languages).
Proof.
  split; intros transport fuel languages Hf.
  - destruct (statistics_rows_runs predict_rub_salary_hh
                (fun name => fetch_hh_vacancies (transport name) fuel)
                (fun name => fetch_hh_total (transport name) fuel Hf) languages)
      as (outcome & Hout & Hrows).
    exists outcome. split; [ exact Hout | ]. intros rows E. apply (Hrows rows E).
  - destruct (statistics_rows_runs predict_rub_salary_sj
                (fun name => fetch_sj_vacancies (transport name) fuel)
                (fun name => fetch_sj_total (transport name) fuel Hf) languages)
      as (outcome & Hout & Hrows).
    exists outcome. split; [ exact Hout | ]. intros rows E. apply (Hrows rows E).
Qed.

Lemma rows_in_language_order_example :
  (exists rows,
      get_hh_statistics hh_go_ruby 201 ["Go"; "Ruby"] = Some (Ok rows) /\
      map language rows = ["Go"; "Ruby"]) /\
  (exists rows,
      get_sj_statistics sj_go_ruby 51 ["Go"; "Ruby"] = Some (Ok rows) /\
      map language rows = ["Go"; "Ruby"]).
Proof.
  destruct rows_in_language_order as [Hhh Hsj].
  split.
  - destruct (Hhh hh_go_ruby 201%nat ["Go"; "Ruby"] ltac:(lia))
      as (outcome & Hout & Hrows).
    pose proof Hout as Hc. vm_compute in Hc. injection Hc as Hc. subst outcome.
    eexists. split; [ exact Hout | ]. apply Hrows. reflexivity.
  - destruct (Hsj sj_go_ruby 51%nat ["Go"; "Ruby"] ltac:(lia))
      as (outcome & Hout & Hrows).
    pose proof Hout as Hc. vm_compute in Hc. injection Hc as Hc. subst outcome.
    eexists. split; [ exact Hout | ]. apply Hrows. reflexivity.
Defined.



(** X6: when the fetch of the first language yields no pair and raises
    nothing, the statistics function raises [UnboundLocalError], whatever
    languages follow. *)
Theorem first_language_without_pairs_raises :
  (forall transport fuel name rest, (200 < fuel)%nat ->
     exists run,
       fetch_hh_vacancies (transport name) fuel = Some run /\
       (yields (trace run) = [] -> raised run = None ->
        get_hh_statistics transport fuel (name :: rest)
          = Some (Raise UnboundLocalError))) /\
  (forall transport fuel name rest, (50 < fuel)%nat ->
     exists run,
       fetch_sj_vacancies (transport name) fuel = Some run /\
       (yields (trace run) = [] -> raised run = None ->
        get_sj_statistics transport fuel (name :: rest)
          = Some (Raise UnboundLocalError))).
Proof.
  split; intros transport fuel name rest Hf.
  - destruct (fetch_hh_total (transport name) fuel Hf) as [run Hrun].
    exists run. split; [ exact Hrun | ]. intros Hy Hr.
    unfold get_hh_statistics. cbn [statistics]. rewrite Hrun.
    rewrite (language_turn_nothing_yielded _ _ _ _ Hy Hr). reflexivity.
  - destruct (fetch_sj_total (transport name) fuel Hf) as [run Hrun].
    exists run. split; [ exact Hrun | ]. intros Hy Hr.
    unfold get_sj_statistics. cbn [statistics]. rewrite Hrun.
    rewrite (language_turn_nothing_yielded _ _ _ _ Hy Hr). reflexivity.
Qed.

Lemma first_language_without_pairs_raises_example :
  get_hh_statistics hh_only_go 201 ["Ruby"; "Go"] = Some (Raise UnboundLocalError) /\
  get_sj_statistics sj_only_go 51 ["Ruby"; "Go"] = Some (Raise UnboundLocalError).
Proof.
  destruct first_language_without_pairs_raises as [Hhh Hsj].
  split.
  - destruct (Hhh hh_only_go 201%nat "Ruby" ["Go"] ltac:(lia)) as (run & Hrun & H).
    vm_compute in Hrun. injection Hrun as <-. apply H; reflexivity.
  - destruct (Hsj sj_only_go 51%nat "Ruby" ["Go"] ltac:(lia)) as (run & Hrun & H).
    vm_compute in Hrun. injection Hrun as <-. apply H; reflexivity.
Defined.

(** X7: in the returned rows, a language after the first whose fetch yields
    no pair is given the total of the row before it. *)
Theorem total_carried_over_without_pairs :
  (forall transport fuel languages, (200 < fuel)%nat ->
     exists outcome,
       get_hh_statistics transport fuel languages = Some outcome /\
       forall rows i name,
         outcome = Ok rows -> nth_error languages (Datatypes.S i) = Some name ->
         exists run r before,
           fetch_hh_vacancies (transport name) fuel = Some run /\
           nth_error rows (Datatypes.S i) = Some r /\
           nth_error rows i = Some before /\
           (yields (trace run) = [] -> total_found r = total_found before)) /\
  (forall transport fuel languages, (50 < fuel)%nat ->
     exists outcome,
       get_sj_statistics transport fuel languages = Some outcome /\
       forall rows i name,
         outcome = Ok rows -> nth_error languages (Datatypes.S i) = Some name ->
         exists run r before,
           fetch_sj_vacancies (transport name) fuel = Some run /\
           nth_error rows (Datatypes.S i) = Some r /\
           nth_error rows i = Some before /\
           (yields (trace run) = [] -> total_found r = total_found before)).
Proof.
  split; intros transport fuel languages Hf.
  - destruct (statistics_rows_runs predict_rub_salary_hh
                (fun name => fetch_hh_vacancies (transport name) fuel)
                (fun name => fetch_hh_total (transport name) fuel Hf) languages)
      as (outcome & Hout & Hrows).
    exists outcome. split; [ exact Hout | ]. intros rows i name E Hi.
    apply (proj2 (proj2 (Hrows rows E)) i name Hi).
  - destruct (statistics_rows_runs predict_rub_salary_sj
                (fun name => fetch_sj_vacancies (transport name) fuel)
                (fun name => fetch_sj_total (transport name) fuel Hf) languages)
      as (outcome & Hout & Hrows).
    exists outcome. split; [ exact Hout | ]. intros rows i name E Hi.
    apply (proj2 (proj2 (Hrows rows E)) i name Hi).
Qed.

Lemma total_carried_over_without_pairs_example :
  (exists rows r before,
      get_hh_statistics hh_only_go 201 ["Go"; "Ruby"] = Some (Ok rows) /\
      nth_error rows 1 = Some r /\ nth_error rows 0 = Some before /\
      total_found r = total_found before) /\
  (exists rows r before,
      get_sj_statistics sj_only_go 51 ["Go"; "Ruby"] = Some (Ok rows) /\
      nth_error rows 1 = Some r /\ nth_error rows 0 = Some before /\
      total_found r = total_found before).
Proof.
  destruct total_carried_over_without_pairs as [Hhh Hsj].
  split.
  - destruct (Hhh hh_only_go 201%nat ["Go"; "Ruby"] ltac:(lia))
      as (outcome & Hout & Hrows).
    pose proof Hout as Hc. vm_compute in Hc. injection Hc as Hc. subst outcome.
    destruct (Hrows _ 0%nat "Ruby" eq_refl eq_refl)
      as (run & r & before & Hrun & Hr & Hb & Hcarry).
    eexists. exists r, before.
    split; [ exact Hout | split; [ exact Hr | split; [ exact Hb | ] ] ].
    vm_compute in Hrun. injection Hrun as <-. apply Hcarry. reflexivity.
  - destruct (Hsj sj_only_go 51%nat ["Go"; "Ruby"] ltac:(lia))
      as (outcome & Hout & Hrows).
    pose proof Hout as Hc. vm_compute in Hc. injection Hc as Hc. subst outcome.
    destruct (Hrows _ 0%nat "Ruby" eq_refl eq_refl)
      as (run & r & before & Hrun & Hr & Hb & Hcarry).
    eexists. exists r, before.
    split; [ exact Hout | split; [ exact Hr | split; [ exact Hb | ] ] ].
    vm_compute in Hrun. injection Hrun as <-. apply Hcarry. reflexivity.
Defined.

(** X8: in the returned rows, the number of processed listings of a language
    is never negative and never more than the number of pairs its fetch
    yielded. *)
Theorem processed_at_most_yielded :
  (forall transport fuel languages, (200 < fuel)%nat ->
     exists outcome,
       get_hh_statistics transport fuel languages = Some outcome /\
       forall rows i name,
         outcome = Ok rows -> nth_error languages i = Some name ->
         exists run r,
           fetch_hh_vacancies (transport name) fuel = Some run /\
           nth_error rows i = Some r /\
           0 <= total_processed r <= Z.of_nat (length (yields (trace run)))) /\
  (forall transport fuel languages, (50 < fuel)%nat ->
     exists outcome,
       get_sj_statistics transport fuel languages = Some outcome /\
       forall rows i name,
         outcome = Ok rows -> nth_error languages i = Some name ->
         exists run r,
           fetch_sj_vacancies (transport name) fuel = Some run /\
           nth_error rows i = Some r /\
           0 <= total_processed r <= Z.of_nat (length (yields (trace run)))).
Proof.
  split; intros transport fuel languages Hf.
  - destruct (statistics_rows_runs predict_rub_salary_hh
                (fun name => fetch_hh_vacancies (transport name) fuel)
                (fun name => fetch_hh_total (transport name) fuel Hf) languages)
      as (outcome & Hout & Hrows).
    exists outcome. split; [ exact Hout | ]. intros rows i name E Hi.
    destruct (proj1 (proj2 (Hrows rows E)) i name Hi)
      as (run & r & Hrun & Hr & _ & _ & Hk & _).
    exists run, r. auto.
  - destruct (statistics_rows_runs predict_rub_salary_sj
                (fun name => fetch_sj_vacancies (transport name) fuel)
                (fun name => fetch_sj_total (transport name) fuel Hf) languages)
      as (outcome & Hout & Hrows).
    exists outcome. split; [ exact Hout | ]. intros rows i name E Hi.
    destruct (proj1 (proj2 (Hrows rows E)) i name Hi)
      as (run & r & Hrun & Hr & _ & _ & Hk & _).
    exists run, r. auto.
Qed.

Lemma processed_at_most_yielded_example :
  (exists rows r,
      get_hh_statistics hh_go_ruby 201 ["Go"; "Ruby"] = Some (Ok rows) /\
      nth_error rows 1 = Some r /\ 0 <= total_processed r <= 1) /\
  (exists rows r,
      get_sj_statistics sj_go_ruby 51 ["Go"; "Ruby"] = Some (Ok rows) /\
      nth_error rows 1 = Some r /\ 0 <= total_processed r <= 1).
Proof.
  destruct processed_at_most_yielded as [Hhh Hsj].
  split.
  - destruct (Hhh hh_go_ruby 201%nat ["Go"; "Ruby"] ltac:(lia))
      as (outcome & Hout & Hrows).
    pose proof Hout as Hc. vm_compute in Hc. injection Hc as Hc. subst outcome.
    destruct (Hrows _ 1%nat "Ruby" eq_refl eq_refl) as (run & r & Hrun & Hr & Hk).
    eexists. exists r. split; [ exact Hout | split; [ exact Hr | ] ].
    vm_compute in Hrun. injection Hrun as <-. exact Hk.
  - destruct (Hsj sj_go_ruby 51%nat ["Go"; "Ruby"] ltac:(lia))
      as (outcome & Hout & Hrows).
    pose proof Hout as Hc. vm_compute in Hc. injection Hc as Hc. subst outcome.
    destruct (Hrows _ 1%nat "Ruby" eq_refl eq_refl) as (run & r & Hrun & Hr & Hk).
    eexists. exists r. split; [ exact Hout | split; [ exact Hr | ] ].
    vm_compute in Hrun. injection Hrun as <-. exact Hk.
Defined.

(** X9: in the returned rows, when a language has at least one counted
    prediction, its counted predictions all lie between two bounds, the
    lower one not negative, and their sum is below [2^53], the average
    salary of its row lies between these bounds. *)
Theorem average_between_predictions :
  (forall transport fuel languages, (200 < fuel)%nat ->
     exists outcome,
       get_hh_statistics transport fuel languages = Some outcome /\
       forall rows i name,
         outcome = Ok rows -> nth_error languages i = Some name ->
         exists run r,
           fetch_hh_vacancies (transport name) fuel = Some run /\
           nth_error rows i = Some r /\
           forall lo hi,
             0 <= lo ->
             counted predict_rub_salary_hh (yields (trace run)) <> [] ->
             Forall (fun s => lo <= s <= hi)
               (counted predict_rub_salary_hh (yields (trace run))) ->
             sum_Z (counted predict_rub_salary_hh (yields (trace run))) < 2 ^ 53 ->
             lo <= average_salary r <= hi) /\
  (forall transport fuel languages, (50 < fuel)%nat ->
     exists outcome,
       get_sj_statistics transport fuel languages = Some outcome /\
       forall rows i name,
         outcome = Ok rows -> nth_error languages i = Some name ->
         exists run r,
           fetch_sj_vacancies (transport name) fuel = Some run /\
           nth_error rows i = Some r /\
           forall lo hi,
             0 <= lo ->
             counted predict_rub_salary_sj (yields (trace run)) <> [] ->
             Forall (fun s => lo <= s <= hi)
               (counted predict_rub_salary_sj (yields (trace run))) ->
             sum_Z (counted predict_rub_salary_sj (yields (trace run))) < 2 ^ 53 ->
             lo <= average_salary r <= hi).
Proof.
  split; intros transport fuel languages Hf.
  - destruct (statistics_rows_runs predict_rub_salary_hh
                (fun name => fetch_hh_vacancies (transport name) fuel)
                (fun name => fetch_hh_total (transport name) fuel Hf) languages)
      as (outcome & Hout & Hrows).
    exists outcome. split; [ exact Hout | ]. intros rows i name E Hi.
    destruct (proj1 (proj2 (Hrows rows E)) i name Hi)
      as (run & r & Hrun & Hr & _ & _ & _ & _ & Havg).
    exists run, r. auto.
  - destruct (statistics_rows_runs predict_rub_salary_sj
                (fun name => fetch_sj_vacancies (transport name) fuel)
                (fun name => fetch_sj_total (transport name) fuel Hf) languages)
      as (outcome & Hout & Hrows).
    exists outcome. split; [ exact Hout | ]. intros rows i name E Hi.
    destruct (proj1 (proj2 (Hrows rows E)) i name Hi)
      as (run & r & Hrun & Hr & _ & _ & _ & _ & Havg).
    exists run, r. auto.
Qed.

Lemma average_between_predictions_example :
  (exists rows r,
      get_hh_statistics hh_go_ruby 201 ["Go"; "Ruby"] = Some (Ok rows) /\
      nth_error rows 0 = Some r /\ 1000 <= average_salary r <= 2000) /\
  (exists rows r,
      get_sj_statistics sj_go_ruby 51 ["Go"; "Ruby"] = Some (Ok rows) /\
      nth_error rows 0 = Some r /\ 1000 <= average_salary r <= 2000).
Proof.
  destruct average_between_predictions as [Hhh Hsj].
  split.
  - destruct (Hhh hh_go_ruby 201%nat ["Go"; "Ruby"] ltac:(lia))
      as (outcome & Hout & Hrows).
    pose proof Hout as Hc. vm_compute in Hc. injection Hc as Hc. subst outcome.
    destruct (Hrows _ 0%nat "Go" eq_refl eq_refl) as (run & r & Hrun & Hr & Havg).
    eexists. exists r. split; [ exact Hout | split; [ exact Hr | ] ].
    vm_compute in Hrun. injection Hrun as <-.
    apply Havg; [ lia | vm_compute; discriminate | | vm_compute; reflexivity ].
    vm_compute. repeat constructor; discriminate.
  - destruct (Hsj sj_go_ruby 51%nat ["Go"; "Ruby"] ltac:(lia))
      as (outcome & Hout & Hrows).
    pose proof Hout as Hc. vm_compute in Hc. injection Hc as Hc. subst outcome.
    destruct (Hrows _ 0%nat "Go" eq_refl eq_refl) as (run & r & Hrun & Hr & Havg).
    eexists. exists r. split; [ exact Hout | split; [ exact Hr | ] ].
    vm_compute in Hrun. injection Hrun as <-.
    apply Havg; [ lia | vm_compute; discriminate | | vm_compute; reflexivity ].
    vm_compute. repeat constructor; discriminate.
Defined.

Section LastListing.

Context {P V S : Type}.
Variable stop : Z -> S -> bool.
Variable signal : P -> S.
Variable listings : P -> list V.
Variable reported : P -> Z.
Variable get : Z -> response P.

Local Abbreviation shape := (run_of stop signal listings reported get).

(** The last pair of a run carries the total of the last requested page
    that had listings. *)
Lemma run_of_last_total (page : Z) (s : S) (cs : list P) (run : fetch_run V)
    (p : Z) (c : P) :
  shape page s cs run ->
  In p (requests (trace run)) -> get p = Success c -> listings c <> [] ->
  (forall q c', p < q -> In q (requests (trace run)) -> get q = Success c' ->
                listings c' = []) ->
  yields (trace run) <> [] /\
  last (map snd (yields (trace run))) 0 = reported c.
Proof.
  intros Hrun Hin Hget Hc Hafter.
  pose proof (run_of_yields _ _ _ _ _ _ _ _ _ Hrun) as Hy.
  destruct (run_of_trace _ _ _ _ _ _ _ _ _ Hrun) as [Hcs Hshape].
  assert (Hreq : forall q, page <= q < page + Z.of_nat (length cs) ->
                           In q (requests (trace run))).
  { intros q Hq. apply (pages_from_In page (length cs) q) in Hq.
    destruct Hshape as [ [_ Ht] | (_ & Ht & _) ]; rewrite Ht.
    - rewrite requests_events_of. exact Hq.
    - rewrite requests_app, requests_events_of. apply in_or_app. left. exact Hq. }
  assert (Hp : page <= p < page + Z.of_nat (length cs)).
  { destruct Hshape as [ [_ Ht] | (_ & Ht & st & Hfail) ]; rewrite Ht in Hin.
    - rewrite requests_events_of in Hin. apply pages_from_In in Hin. exact Hin.
    - rewrite requests_app, requests_events_of in Hin. cbn [requests] in Hin.
      apply in_app_or in Hin. destruct Hin as [Hin | [<- | []]].
      + apply pages_from_In in Hin. exact Hin.
      + congruence. }
  destruct (nth_error cs (Z.to_nat (p - page))) as [c0 | ] eqn:E0;
    [ | apply nth_error_None in E0; lia ].
  pose proof (Hcs _ _ E0) as Hg0.
  replace (page + Z.of_nat (Z.to_nat (p - page))) with p in Hg0 by lia.
  assert (c0 = c) by congruence. subst c0.
  destruct (nth_error_split cs _ E0) as (pre & post & -> & Hlen).
  assert (Hpost : forall c', In c' post -> listings c' = []).
  { intros c' Hc'. destruct (In_nth_error _ _ Hc') as [k Hk].
    assert (Ek : nth_error (pre ++ c :: post) (length pre + Datatypes.S k) = Some c').
    { rewrite nth_error_app2 by lia.
      replace (length pre + Datatypes.S k - length pre)%nat with (Datatypes.S k) by lia.
      exact Hk. }
    pose proof (Hcs _ _ Ek) as Hgk.
    assert (Hlt : (k < length post)%nat) by (apply nth_error_Some; congruence).
    apply (Hafter (page + Z.of_nat (length pre + Datatypes.S k)) c'); [ lia | | exact Hgk ].
    apply Hreq. rewrite length_app. cbn [length]. lia. }
  rewrite Hy. split.
  - rewrite flat_map_app. cbn [flat_map]. unfold page_pairs at 2.
    destruct (listings c); [ congruence | ].
    intros H. apply app_eq_nil in H. destruct H as [_ H]. discriminate.
  - apply last_flat_map_pairs; assumption.
Qed.

End LastListing.

(** X10: in the returned rows, the total of a language is the total reported
    by the last requested page of its fetch that had listings; a later page
    without listings does not change it, whatever total it reports. *)
Theorem total_of_last_page_with_listings :
  (forall transport fuel languages, (200 < fuel)%nat ->
     exists outcome,
       get_hh_statistics transport fuel languages = Some outcome /\
       forall rows i name,
         outcome = Ok rows -> nth_error languages i = Some name ->
         exists run r,
           fetch_hh_vacancies (transport name) fuel = Some run /\
           nth_error rows i = Some r /\
           forall p c,
             In p (requests (trace run)) -> transport name p = Success c ->
             items c <> [] ->
             (forall q c', p < q -> In q (requests (trace run)) ->
                           transport name q = Success c' -> items c' = []) ->
             total_found r = found c) /\
  (forall transport fuel languages, (50 < fuel)%nat ->
     exists outcome,
       get_sj_statistics transport fuel languages = Some outcome /\
       forall rows i name,
         outcome = Ok rows -> nth_error languages i = Some name ->
         exists run r,
           fetch_sj_vacancies (transport name) fuel = Some run /\
           nth_error rows i = Some r /\
           forall p c,
             In p (requests (trace run)) -> transport name p = Success c ->
             objects c <> [] ->
             (forall q c', p < q -> In q (requests (trace run)) ->
                           transport name q = Success c' -> objects c' = []) ->
             total_found r = total c).
Proof.
  split; intros transport fuel languages Hf.
  - destruct (statistics_rows_runs predict_rub_salary_hh
                (fun name => fetch_hh_vacancies (transport name) fuel)
                (fun name => fetch_hh_total (transport name) fuel Hf) languages)
      as (outcome & Hout & Hrows).
    exists outcome. split; [ exact Hout | ]. intros rows i name E Hi.
    destruct (proj1 (proj2 (Hrows rows E)) i name Hi)
      as (run & r & Hrun & Hr & _ & _ & _ & Hlast & _).
    destruct (paginate_run_of _ _ _ _ _ _ _ _ _ Hrun) as [cs Hcs].
    exists run, r. split; [ exact Hrun | split; [ exact Hr | ] ].
    intros p c Hin Hget Hc Hafter.
    destruct (run_of_last_total _ _ _ _ _ _ _ _ _ _ _ Hcs Hin Hget Hc Hafter)
      as [Hne Hl].
    rewrite (Hlast Hne). exact Hl.
  - destruct (statistics_rows_runs predict_rub_salary_sj
                (fun name => fetch_sj_vacancies (transport name) fuel)
                (fun name => fetch_sj_total (transport name) fuel Hf) languages)
      as (outcome & Hout & Hrows).
    exists outcome. split; [ exact Hout | ]. intros rows i name E Hi.
    destruct (proj1 (proj2 (Hrows rows E)) i name Hi)
      as (run & r & Hrun & Hr & _ & _ & _ & Hlast & _).
    destruct (paginate_run_of _ _ _ _ _ _ _ _ _ Hrun) as [cs Hcs].
    exists run, r. split; [ exact Hrun | split; [ exact Hr | ] ].
    intros p c Hin Hget Hc Hafter.
    destruct (run_of_last_total _ _ _ _ _ _ _ _ _ _ _ Hcs Hin Hget Hc Hafter)
      as [Hne Hl].
    rewrite (Hlast Hne). exact Hl.
Qed.

(** Three pages with listings reporting 30, 31 and 32, then an empty page
    reporting 30: the row records 32. *)
Lemma total_of_last_page_with_listings_example :
  (exists rows r,
      get_hh_statistics (fun _ => hh_three_pages) 201 ["Go"] = Some (Ok rows) /\
      nth_error rows 0 = Some r /\ total_found r = 32) /\
  (exists rows r,
      get_sj_statistics (fun _ => sj_three_pages) 51 ["Go"] = Some (Ok rows) /\
      nth_error rows 0 = Some r /\ total_found r = 32).
Proof.
  destruct total_of_last_page_with_listings as [Hhh Hsj].
  split.
  - destruct (Hhh (fun _ => hh_three_pages) 201%nat ["Go"] ltac:(lia))
      as (outcome & Hout & Hrows).
    pose proof Hout as Hc. vm_compute in Hc. injection Hc as Hc. subst outcome.
    destruct (Hrows _ 0%nat "Go" eq_refl eq_refl) as (run & r & Hrun & Hr & Hlast).
    eexists. exists r. split; [ exact Hout | split; [ exact Hr | ] ].
    vm_compute in Hrun. injection Hrun as <-.
    apply (Hlast 2 {| items := repeat (hh_listing (Some 1000) (Some 2000)) 10;
                      found := 32; pages := 3 |}).
    + cbn. auto.
    + reflexivity.
    + cbn. discriminate.
    + intros q c' Hq Hin Hget. cbn in Hin.
      destruct Hin as [E | [E | [E | [E | []]]]]; try lia.
      subst q. vm_compute in Hget. injection Hget as <-. reflexivity.
  - destruct (Hsj (fun _ => sj_three_pages) 51%nat ["Go"] ltac:(lia))
      as (outcome & Hout & Hrows).
    pose proof Hout as Hc. vm_compute in Hc. injection Hc as Hc. subst outcome.
    destruct (Hrows _ 0%nat "Go" eq_refl eq_refl) as (run & r & Hrun & Hr & Hlast).
    eexists. exists r. split; [ exact Hout | split; [ exact Hr | ] ].
    vm_compute in Hrun. injection Hrun as <-.
    apply (Hlast 2 {| objects := repeat (sj_listing (Some 1000) (Some 2000)) 10;
                      total := 32; more := true |}).
    + cbn. auto.
    + reflexivity.
    + cbn. discriminate.
    + intros q c' Hq Hin Hget. cbn in Hin.
      destruct Hin as [E | [E | [E | [E | []]]]]; try lia.
      subst q. vm_compute in Hget. injection Hget as <-. reflexivity.
Defined.

(** ** Predictions and the bounds they come from *)

(** X11: for positive bounds below [2^50], the prediction from both bounds
    lies between them, the prediction from a lower bound alone is not below
    it, and the prediction from an upper bound alone is not above it and
    not negative. *)
Theorem prediction_respects_bounds :
  (forall lo hi, 0 < lo -> lo <= hi -> hi < 2 ^ 50 ->
     exists n, predict_salary (Some lo) (Some hi) = Ok (Some n) /\ lo <= n <= hi) /\
  (forall lo, 0 < lo < 2 ^ 50 ->
     exists n, predict_salary (Some lo) None = Ok (Some n) /\ lo <= n) /\
  (forall hi, 0 < hi < 2 ^ 50 ->
     exists n, predict_salary None (Some hi) = Ok (Some n) /\ 0 <= n <= hi).
Proof.
  assert (P50 : 2 ^ 50 = 1125899906842624) by reflexivity.
  assert (P53 : 2 ^ 53 = 9007199254740992) by reflexivity.
  split; [ | split ].
  - intros lo hi Hlo Hle Hhi. unfold predict_salary, truthy_int.
    destruct (Z.eqb_spec lo 0) as [E | _]; [ lia | ].
    destruct (Z.eqb_spec hi 0) as [E | _]; [ lia | ].
    pose proof (trunc_true_divide_quot (lo + hi) 2 ltac:(lia) ltac:(lia)) as H.
    unfold trunc_true_divide in H.
    destruct (int_true_divide (lo + hi) 2) as [q | e]; cbn [bind] in *; [ | discriminate ].
    rewrite H. cbn [bind]. eexists. split; [ reflexivity | ].
    rewrite Z.quot_div_nonneg by lia.
    split; [ apply Z.div_le_lower_bound | apply Z.div_le_upper_bound ]; lia.
  - intros lo Hlo. unfold predict_salary, truthy_int.
    destruct (Z.eqb_spec lo 0) as [E | _]; [ lia | ].
    pose proof (trunc_times_1_2 lo ltac:(lia)) as H. unfold trunc_times in H.
    destruct (int_to_float lo) as [x | e]; cbn [bind] in *; [ | discriminate ].
    rewrite H. cbn [bind]. eexists. split; [ reflexivity | ].
    rewrite Z.quot_div_nonneg by lia.
    apply Z.div_le_lower_bound; lia.
  - intros hi Hhi. unfold predict_salary, truthy_int.
    destruct (Z.eqb_spec hi 0) as [E | _]; [ lia | ].
    pose proof (trunc_times_0_8 hi ltac:(lia)) as H. unfold trunc_times in H.
    destruct (int_to_float hi) as [x | e]; cbn [bind] in *; [ | discriminate ].
    rewrite H. cbn [bind]. eexists. split; [ reflexivity | ].
    rewrite Z.quot_div_nonneg by lia.
    split; [ apply Z.div_pos | apply Z.div_le_upper_bound ]; lia.
Qed.

Lemma prediction_respects_bounds_example :
  (exists n, predict_salary (Some 1000) (Some 2001) = Ok (Some n) /\
             1000 <= n <= 2001) /\
  (exists n, predict_salary (Some 1001) None = Ok (Some n) /\ 1001 <= n) /\
  (exists n, predict_salary None (Some 1001) = Ok (Some n) /\ 0 <= n <= 1001).
Proof.
  destruct prediction_respects_bounds as (Hboth & Hlower & Hupper).
  split; [ | split ].
  - apply Hboth; vm_compute; congruence.
  - apply Hlower; split; vm_compute; congruence.
  - apply Hupper; split; vm_compute; congruence.
Defined.

(** ** What a fetch reads *)

Section Frame.

Context {P V S : Type}.
Variable stop : Z -> S -> bool.
Variable signal : P -> S.
Variable listings : P -> list V.
Variable reported : P -> Z.


End Frame.


